(** * The project template generator of [templates/generate_project.py]

    A shallow embedding of [ProjectGenerator] and of the [FRAMEWORKS]
    registry, with the properties stated about them.

    Modelling conventions.
    - A Python [str] is a [string]: the UTF-8 bytes of the text.  The
      placeholders are ASCII, so searching bytes finds the occurrences
      that searching code points finds.  [strip] and [int] see the
      characters of the text; a regular file holds bytes, which reading
      decodes.
    - A [Path] is the list of its components from the root of the name
      space; the empty list is that root, which always is a directory.
      The components are names: none is [..], and no node is a
      symbolic link.  The system is a POSIX one: writing in text mode
      leaves the line ends as they are.
    - The console hands over lines of text, already decoded.
    - The file system is a finite map from paths to nodes; the console is
      a list of pending inputs and a list of printed messages; files
      written through [open(..., "w")] are logged in the order of the
      writes.  All of them live in a [world] threaded through a state and
      exception monad. *)

From Stdlib Require Import Ascii DecimalString.
From stdpp Require Import gmap strings list fin_maps.

#[local] Arguments String.append !_ _ / : simpl nomatch.


(** ** Python strings *)

Module Str.

(** [s.startswith(t)] *)
Fixpoint startswith (t s : string) : bool :=
  match t, s with
  | EmptyString, _ => true
  | String a t', String b s' => if decide (a = b) then startswith t' s' else false
  | String _ _, EmptyString => false
  end.

(** [s[n:]] *)
Fixpoint drop (n : nat) (s : string) : string :=
  match n, s with
  | O, _ => s
  | S _, EmptyString => EmptyString
  | S k, String _ s' => drop k s'
  end.

(** [c in s] for a single character [c] *)
Fixpoint has_char (c : ascii) (s : string) : bool :=
  match s with
  | EmptyString => false
  | String a s' => if decide (a = c) then true else has_char c s'
  end.

(** [t in s]: the text [t] occurs somewhere in [s] *)
Fixpoint contains (t s : string) : bool :=
  startswith t s ||
  match s with
  | EmptyString => false
  | String _ s' => contains t s'
  end.

(** The scan of [str.replace] for a non-empty [old]: left to right, an
    occurrence of [old] is replaced by [new] and the scan resumes behind
    it.  [skip] counts the characters of a matched occurrence that are
    still to be passed over. *)
Fixpoint replace_from (old new : string) (skip : nat) (s : string) : string :=
  match s with
  | EmptyString => EmptyString
  | String c s' =>
      match skip with
      | S k => replace_from old new k s'
      | O =>
          if startswith old s
          then new +:+ replace_from old new (String.length old - 1) s'
          else String c (replace_from old new 0 s')
      end
  end.

(** For an empty [old], Python inserts [new] before every character and
    at the end. *)
Fixpoint intersperse (new s : string) : string :=
  match s with
  | EmptyString => new
  | String c s' => new +:+ String c (intersperse new s')
  end.

(** [s.replace(old, new)] *)
Definition replace (old new s : string) : string :=
  match old with
  | EmptyString => intersperse new s
  | String _ _ => replace_from old new 0 s
  end.

(** The scan of [str.count] for a non-empty [t]: occurrences are counted
    left to right without overlap. *)
Fixpoint count_from (t : string) (skip : nat) (s : string) : nat :=
  match s with
  | EmptyString => 0
  | String _ s' =>
      match skip with
      | S k => count_from t k s'
      | O =>
          if startswith t s
          then S (count_from t (String.length t - 1) s')
          else count_from t 0 s'
      end
  end.

(** [s.count(t)] *)
Definition count (t s : string) : nat :=
  match t with
  | EmptyString => S (String.length s)
  | String _ _ => count_from t 0 s
  end.

(** [s[:n]] *)
Fixpoint take (n : nat) (s : string) : string :=
  match n, s with
  | S k, String a s' => String a (take k s')
  | _, _ => EmptyString
  end.

(** *** Texts as UTF-8

    The decoder of CPython: what stands at the front of the bytes [s]
    is a character with its code point and the number of its bytes, or
    an error over some bytes with its reason.  Overlong forms,
    surrogates and code points above U+10FFFF are errors. *)
Definition byte (c : ascii) : N := N_of_ascii c.

Definition continuation (b : N) : bool := (128 <=? b)%N && (b <=? 191)%N.

Inductive utf8_step : Type :=
  | Utf8Char (code_point : N) (size : nat)
  | Utf8Bad (size : nat) (reason : string).

Definition bad_start : utf8_step := Utf8Bad 1 "invalid start byte".
Definition bad_continuation (size : nat) : utf8_step :=
  Utf8Bad size "invalid continuation byte".
Definition unexpected_end (size : nat) : utf8_step :=
  Utf8Bad size "unexpected end of data".

Definition bits (mask : N) (shift : N) (b : N) : N := N.shiftl (N.land b mask) shift.

Definition decode_step (s : string) : utf8_step :=
  match s with
  | EmptyString => unexpected_end 0
  | String a0 s1 =>
      let a := byte a0 in
      if (a <? 128)%N then Utf8Char a 1
      else if (a <? 194)%N then bad_start
      else if (a <? 224)%N then
        match s1 with
        | EmptyString => unexpected_end 1
        | String b0 _ =>
            let b := byte b0 in
            if continuation b
            then Utf8Char (N.lor (bits 31 6 a) (bits 63 0 b)) 2
            else bad_continuation 1
        end
      else if (a <? 240)%N then
        match s1 with
        | EmptyString => unexpected_end 1
        | String b0 s2 =>
            let b := byte b0 in
            if negb (continuation b)
               || (if (b <? 160)%N then (a =? 224)%N else (a =? 237)%N)
            then bad_continuation 1
            else
              match s2 with
              | EmptyString => unexpected_end 2
              | String c0 _ =>
                  let c := byte c0 in
                  if continuation c
                  then Utf8Char (N.lor (bits 15 12 a) (N.lor (bits 63 6 b) (bits 63 0 c))) 3
                  else bad_continuation 2
              end
        end
      else if (a <? 245)%N then
        match s1 with
        | EmptyString => unexpected_end 1
        | String b0 s2 =>
            let b := byte b0 in
            if negb (continuation b)
               || (if (b <? 144)%N then (a =? 240)%N else (a =? 244)%N)
            then bad_continuation 1
            else
              match s2 with
              | EmptyString => unexpected_end 2
              | String c0 s3 =>
                  let c := byte c0 in
                  if negb (continuation c) then bad_continuation 2
                  else
                    match s3 with
                    | EmptyString => unexpected_end 3
                    | String d0 _ =>
                        let d := byte d0 in
                        if continuation d
                        then Utf8Char (N.lor (bits 7 18 a)
                                         (N.lor (bits 63 12 b)
                                            (N.lor (bits 63 6 c) (bits 63 0 d)))) 4
                        else bad_continuation 3
                    end
              end
        end
      else bad_start
  end.

(** Where decoding as UTF-8 fails first: the byte there, its position,
    the number of bytes in error and the reason. *)
Record decode_error : Type := mkDecodeError {
  error_byte : ascii;
  error_start : nat;
  error_size : nat;
  error_reason : string
}.

Fixpoint first_error_from (skip position : nat) (s : string) : option decode_error :=
  match s with
  | EmptyString => None
  | String a s' =>
      match skip with
      | S k => first_error_from k (S position) s'
      | O =>
          match decode_step s with
          | Utf8Char _ size => first_error_from (size - 1) (S position) s'
          | Utf8Bad size reason => Some (mkDecodeError a position size reason)
          end
      end
  end.

Definition first_error (s : string) : option decode_error := first_error_from 0 0 s.

(** The bytes are the UTF-8 form of a text. *)
Definition well_encoded (s : string) : bool := bool_decide (first_error s = None).

(** The characters of a text, each with its code point and its bytes.
    A byte that starts no character stands alone, under a code point
    that no character has. *)
Fixpoint chars_from (skip : nat) (s : string) : list (N * string) :=
  match s with
  | EmptyString => []
  | String a s' =>
      match skip with
      | S k => chars_from k s'
      | O =>
          match decode_step s with
          | Utf8Char code_point size => (code_point, take size s) :: chars_from (size - 1) s'
          | Utf8Bad _ _ => ((56320 + byte a)%N, String a EmptyString) :: chars_from 0 s'
          end
      end
  end.

Definition chars (s : string) : list (N * string) := chars_from 0 s.

Definition text_of (characters : list (N * string)) : string :=
  String.concat EmptyString characters.*2.

(** [c.isspace()] for the character of code point [c]: the white space
    of Unicode. *)
Definition is_space (c : N) : bool :=
  ((9 <=? c) && (c <=? 13) || (28 <=? c) && (c <=? 32) || (c =? 133) || (c =? 160)
   || (c =? 5760) || (8192 <=? c) && (c <=? 8202) || (c =? 8232) || (c =? 8233)
   || (c =? 8239) || (c =? 8287) || (c =? 12288))%N.

Fixpoint drop_spaces (characters : list (N * string)) : list (N * string) :=
  match characters with
  | [] => []
  | c :: characters' => if is_space c.1 then drop_spaces characters' else characters
  end.

Definition lstrip (s : string) : string := text_of (drop_spaces (chars s)).

Definition rstrip (s : string) : string :=
  text_of (reverse (drop_spaces (reverse (chars s)))).

(** [s.strip()] *)
Definition strip (s : string) : string :=
  text_of (reverse (drop_spaces (reverse (drop_spaces (chars s))))).

(** What reading in text mode with universal newlines makes of the
    line ends: [CR LF] and a lone [CR] become [LF]. *)
Definition CR : ascii := ascii_of_nat 13.
Definition LF : ascii := ascii_of_nat 10.

Fixpoint universal_newlines (s : string) : string :=
  match s with
  | EmptyString => EmptyString
  | String c s' =>
      if decide (c = CR)
      then String LF
             match s' with
             | EmptyString => EmptyString
             | String d s'' =>
                 if decide (d = LF) then universal_newlines s'' else universal_newlines s'
             end
      else String c (universal_newlines s')
  end.

(** [s.lower()] on the letters of ASCII.  Python lowers the other
    letters as well; no character but [Y] becomes [y], so [s.lower()]
    is [y] for the same texts [s]. *)
Definition lower_char (c : ascii) : ascii :=
  let n := nat_of_ascii c in
  if (65 <=? n) && (n <=? 90) then ascii_of_nat (n + 32) else c.

Fixpoint lower (s : string) : string :=
  match s with
  | EmptyString => EmptyString
  | String c s' => String (lower_char c) (lower s')
  end.

(** [sep.join(parts)] *)
Fixpoint join (sep : string) (parts : list string) : string :=
  match parts with
  | [] => EmptyString
  | [x] => x
  | x :: rest => x +:+ sep +:+ join sep rest
  end.

(** [str(n)] for a natural number *)
Definition of_nat (n : nat) : string := NilEmpty.string_of_uint (Nat.to_uint n).

(** [s.zfill(w)] for a string of digits *)
Definition zfill (w : nat) (s : string) : string :=
  Nat.iter (w - String.length s) (String "0") s.

(** A byte as ["%02x"] prints it. *)
Definition hex_digit (n : N) : ascii :=
  match String.get (N.to_nat n) "0123456789abcdef" with
  | Some c => c
  | None => "0"%char
  end.

Definition hex (b : N) : string :=
  String (hex_digit (b / 16)) (String (hex_digit (b mod 16)) EmptyString).

(** [repr(s)]: the text between quotes, with the quote, the backslash
    and what cannot be printed escaped.  Beyond Latin-1 every character
    is taken to be printable. *)
Definition quote : ascii := ascii_of_nat 39.
Definition double_quote : ascii := ascii_of_nat 34.
Definition backslash : ascii := ascii_of_nat 92.

Definition escaped (delimiter : ascii) (c : N * string) : string :=
  if (c.1 =? byte backslash)%N || (c.1 =? byte delimiter)%N
  then String backslash c.2
  else if (c.1 =? 9)%N then String backslash "t"
  else if (c.1 =? 10)%N then String backslash "n"
  else if (c.1 =? 13)%N then String backslash "r"
  else if (c.1 <? 32)%N || (127 <=? c.1)%N && (c.1 <=? 160)%N || (c.1 =? 173)%N
  then String backslash (String "x" (hex c.1))
  else c.2.

Definition repr (s : string) : string :=
  let delimiter :=
    if has_char quote s && negb (has_char double_quote s) then double_quote else quote in
  String delimiter
    (String.concat EmptyString (escaped delimiter <$> chars s)
     +:+ String delimiter EmptyString).

End Str.

(** ** The world the script runs in *)

Inductive node : Type :=
  | File (content : string)
  | Dir.

Inductive errno : Type := ENOENT | EEXIST | ENOTDIR | EISDIR.

(** The exceptions the script can meet.  [OSError] stands for its
    subclasses ([FileNotFoundError], [FileExistsError],
    [NotADirectoryError], [IsADirectoryError]), told apart by [errno]. *)
Inductive exn : Type :=
  | OSError (code : errno) (p : list string)
  | UnicodeDecodeError (error : Str.decode_error)
  | EOFError
  | IndexError
  | KeyboardInterrupt
  | SystemExit (status : nat).

(** What the console hands to one call of [input]. *)
Inductive console_input : Type :=
  | Line (text : string)
  | CtrlC.

(** The helpers [print_header], [print_success], ... wrap a text in ANSI
    colours and a glyph; a printed message is kept as its style and its
    text. *)
Inductive style : Type :=
  | Header | Success | Failure | Info | Warning | Plain | Prompt.

Record datetime : Type := mkDate { year : nat; month : nat; day : nat }.

Record world : Type := mkWorld {
  fs : gmap (list string) node;
  stdin : list console_input;
  stdout : list (style * string);
  written : list (list string * string);
  clock : datetime
}.

Definition set_fs (m : gmap (list string) node) (w : world) : world :=
  mkWorld m (stdin w) (stdout w) (written w) (clock w).

Inductive outcome (A : Type) : Type :=
  | Ok (a : A) (w : world)
  | Raise (e : exn) (w : world).
Arguments Ok {A} a w.
Arguments Raise {A} e w.

Definition M (A : Type) : Type := world → outcome A.

Global Instance M_ret : MRet M := λ A a w, Ok a w.
Global Instance M_bind : MBind M := λ A B f m w,
  match m w with
  | Ok a w' => f a w'
  | Raise e w' => Raise e w'
  end.

Definition raise {A : Type} (e : exn) : M A := λ w, Raise e w.

Definition print (st : style) (text : string) : M unit := λ w,
  Ok () (mkWorld (fs w) (stdin w) (stdout w ++ [(st, text)]) (written w) (clock w)).

(** [input(prompt)]: the prompt is printed, one pending input is consumed.
    An exhausted console raises [EOFError]. *)
Definition after_input (prompt : string) (w : world) : world :=
  mkWorld (fs w) (tail (stdin w)) (stdout w ++ [(Prompt, prompt)]) (written w) (clock w).

Definition input (prompt : string) : M string := λ w,
  let w' := after_input prompt w in
  match stdin w with
  | [] => Raise EOFError w'
  | Line text :: _ => Ok text w'
  | CtrlC :: _ => Raise KeyboardInterrupt w'
  end.

(** *** Paths and the file system *)

Module Path.

(** [str(path)] *)
Definition str (p : list string) : string := Str.join "/" p.

(** [path.parent] *)
Definition parent (p : list string) : list string := removelast p.

(** The proper and improper ancestors of [p] below the root, the
    shortest first: [take 1 p; take 2 p; ...; p]. *)
Fixpoint ancestors_from (base : list string) (rest : list string) : list (list string) :=
  match rest with
  | [] => []
  | c :: rest' => (base ++ [c]) :: ancestors_from (base ++ [c]) rest'
  end.

Definition ancestors (p : list string) : list (list string) := ancestors_from [] p.

Definition lookup_node (m : gmap (list string) node) (p : list string) : option node :=
  match p with
  | [] => Some Dir
  | _ => m !! p
  end.

(** [path.exists()] *)
Definition exists_ (m : gmap (list string) node) (p : list string) : bool :=
  bool_decide (is_Some (lookup_node m p)).

(** [path.is_dir()] *)
Definition is_dir (m : gmap (list string) node) (p : list string) : bool :=
  match lookup_node m p with
  | Some Dir => true
  | _ => false
  end.

(** [path.is_file()] *)
Definition is_file (m : gmap (list string) node) (p : list string) : bool :=
  match lookup_node m p with
  | Some (File _) => true
  | _ => false
  end.

(** [path.mkdir(parents=True, exist_ok=True)]: every ancestor that is
    missing becomes a directory, those that are directories stay; a
    regular file in the way is an error that leaves the tree alone. *)
Definition dirs_of (p : list string) : gmap (list string) node :=
  list_to_map ((λ q, (q, Dir)) <$> ancestors p).

Definition mkdir (p : list string) : M unit := λ w,
  match List.find (is_file (fs w)) (ancestors p) with
  | Some q => Raise (OSError (if decide (q = p) then EEXIST else ENOTDIR) p) w
  | None => Ok () (set_fs (fs w ∪ dirs_of p) w)
  end.

(** The error of reaching for [p] when its parent is no directory: a
    regular file on the way down is not a directory, otherwise a name
    on the way is missing. *)
Definition missing_error (m : gmap (list string) node) (p : list string) : exn :=
  if existsb (is_file m) (ancestors (parent p))
  then OSError ENOTDIR p
  else OSError ENOENT p.

(** The errors of opening or creating [p] that come from its parent. *)
Definition parent_error (m : gmap (list string) node) (p : list string) : option exn :=
  if is_dir m (parent p) then None else Some (missing_error m p).

(** [open(p, "r", encoding="utf-8").read()]: the bytes of the file are
    decoded and the line ends are made [LF]. *)
Definition read_text (p : list string) : M string := λ w,
  match lookup_node (fs w) p with
  | Some (File content) =>
      match Str.first_error content with
      | Some error => Raise (UnicodeDecodeError error) w
      | None => Ok (Str.universal_newlines content) w
      end
  | Some Dir => Raise (OSError EISDIR p) w
  | None => Raise (missing_error (fs w) p) w
  end.

(** [open(p, "w", encoding="utf-8").write(content)] *)
Definition write_text (p : list string) (content : string) : M unit := λ w,
  match lookup_node (fs w) p with
  | Some Dir => Raise (OSError EISDIR p) w
  | _ =>
      match parent_error (fs w) p with
      | Some e => Raise e w
      | None =>
          Ok () (mkWorld (<[p := File content]> (fs w)) (stdin w) (stdout w)
                         (written w ++ [(p, content)]) (clock w))
      end
  end.

(** [path.touch()]: an existing node only has its times bumped, a
    missing one is created as an empty file. *)
Definition touch (p : list string) : M unit := λ w,
  match lookup_node (fs w) p with
  | Some _ => Ok () w
  | None =>
      match parent_error (fs w) p with
      | Some e => Raise e w
      | None => Ok () (set_fs (<[p := File EmptyString]> (fs w)) w)
      end
  end.

(** The entries of the directory [p], in the order the file system
    hands them out (here: the order of the map). *)
Definition iterdir (m : gmap (list string) node) (p : list string) : list (list string) :=
  filter (λ q, parent q = p ∧ q ≠ []) (map_to_list m).*1.

(** [path.rglob("*")]: every entry strictly below [p]. *)
Definition rglob (m : gmap (list string) node) (p : list string) : list (list string) :=
  filter (λ q, p `prefix_of` q ∧ q ≠ p) (map_to_list m).*1.

(** [q.relative_to(p)] for [q] below [p] *)
Definition relative_to (p q : list string) : list string := List.skipn (length p) q.

End Path.

(** ** The framework registry *)

Record FrameworkConfig : Type := mkFramework {
  name : string;
  display_name : string;
  language : string;
  framework : string;
  package_manager : string;
  test_framework : string;
  coverage_tool : string;
  docker_image : string;
  language_version : string;
  description : string
}.

(** The dictionary [FRAMEWORKS], in insertion order (the order counts for
    the numbered interactive selection). *)
Definition FRAMEWORKS : list (string * FrameworkConfig) := [
  ("python-fastapi",
   mkFramework "python-fastapi" "Python + FastAPI" "Python" "FastAPI" "Poetry"
     "pytest" "pytest-cov" "python:3.11-slim" "3.11.x"
     "Modern Python web API with FastAPI, Poetry, and pytest");
  ("typescript-nodejs",
   mkFramework "typescript-nodejs" "TypeScript + Node.js + Express" "TypeScript"
     "Express" "npm/yarn" "Jest" "Istanbul" "node:20-alpine" "5.3+"
     "TypeScript backend with Express, Jest, and ESLint");
  ("python-behave",
   mkFramework "python-behave" "Python + Behave (BDD)" "Python" "Behave" "Poetry"
     "Behave + pytest" "coverage.py" "python:3.11-slim" "3.11.x"
     "Behavior-driven development with Behave and Python")
].

(** [FRAMEWORKS[key]], with [None] where [key not in FRAMEWORKS] *)
Fixpoint dict_get {V : Type} (d : list (string * V)) (key : string) : option V :=
  match d with
  | [] => None
  | (k, v) :: d' => if decide (k = key) then Some v else dict_get d' key
  end.

Definition lookup (key : string) : option FrameworkConfig := dict_get FRAMEWORKS key.

(** The dictionary that [get_project_config] returns; its key
    [description] is the field [project_description] here, the name
    [description] being taken by [FrameworkConfig]. *)
Record ProjectConfig : Type := mkConfig {
  framework_config : FrameworkConfig;
  project_name : string;
  author : string;
  project_description : string;
  gitlab_url : string;
  coverage_threshold : string
}.

(** ** The generator *)

(** Python's truth value of an [Optional[str]]: [None] and the empty
    string are false. *)
Definition truthy (o : option string) : bool :=
  match o with
  | Some (String _ _) => true
  | _ => false
  end.

(** [o or ""] *)
Definition or_empty (o : option string) : string :=
  match o with
  | Some (String c s) => String c s
  | _ => EmptyString
  end.

(** The code points of the digit zero in the scripts that have decimal
    digits; the nine code points behind each are its digits one to nine
    (the Unicode 14 of Python 3.11). *)
Definition decimal_zeros : list N := [
  48; 1632; 1776; 1984; 2406; 2534; 2662; 2790; 2918; 3046; 3174; 3302; 3430; 3558;
  3664; 3792; 3872; 4160; 4240; 6112; 6160; 6470; 6608; 6784; 6800; 6992; 7088; 7232;
  7248; 42528; 43216; 43264; 43472; 43504; 43600; 44016; 65296; 66720; 68912; 69734;
  69872; 69942; 70096; 70384; 70736; 70864; 71248; 71360; 71472; 71904; 72016; 72784;
  73040; 73120; 92768; 92864; 93008; 120782; 120792; 120802; 120812; 120822; 123200;
  123632; 125264; 130032 ]%N.

(** The value of a decimal digit of any script. *)
Definition digit_value (c : N) : option Z :=
  (λ zero, Z.of_N (c - zero)) <$>
    List.find (λ zero, (zero <=? c)%N && (c <? zero + 10)%N) decimal_zeros.

(** The white space that [int] passes over at both ends: that of C in
    ASCII, that of Unicode beyond. *)
Definition int_space (c : N) : bool :=
  ((9 <=? c) && (c <=? 13) || (c =? 32) || (128 <=? c) && Str.is_space c)%N.

Fixpoint drop_int_spaces (characters : list N) : list N :=
  match characters with
  | [] => []
  | c :: characters' => if int_space c then drop_int_spaces characters' else characters
  end.

(** The most digits that [int] converts ([sys.int_info.default_max_str_digits]). *)
Definition max_str_digits : nat := 4300.

(** The digits of an integer literal as [int] accepts them: single
    underscores may separate digits, and the digits are counted. *)
Fixpoint int_digits (acc : Z) (digits : nat) (after_digit : bool) (s : list N) : option Z :=
  match s with
  | [] => if after_digit && (digits <=? max_str_digits) then Some acc else None
  | c :: s' =>
      if (c =? 95)%N
      then (if after_digit then int_digits acc digits false s' else None)
      else match digit_value c with
           | Some d => int_digits (10 * acc + d)%Z (S digits) true s'
           | None => None
           end
  end.

(** [int(s)]; [None] stands for [ValueError]. *)
Definition int (s : string) : option Z :=
  match reverse (drop_int_spaces (reverse (drop_int_spaces (Str.chars s).*1))) with
  | 45%N :: r => Z.opp <$> int_digits 0 0 false r
  | 43%N :: r => int_digits 0 0 false r
  | r => int_digits 0 0 false r
  end.

(** [datetime.strftime("%Y-%m-%d")] *)
Definition strftime_ymd (d : datetime) : string :=
  Str.zfill 4 (Str.of_nat (year d)) +:+ "-" +:+
  Str.zfill 2 (Str.of_nat (month d)) +:+ "-" +:+
  Str.zfill 2 (Str.of_nat (day d)).

Definition nl : string := String (ascii_of_nat 10) EmptyString.

Definition print_header : string → M unit := print Header.
Definition print_success : string → M unit := print Success.
Definition print_error : string → M unit := print Failure.
Definition print_info : string → M unit := print Info.
Definition print_warning : string → M unit := print Warning.

(** The body of the loop of [list_frameworks] over
    [enumerate(FRAMEWORKS.items(), 1)]. *)
Fixpoint list_frameworks_loop (i : nat) (items : list (string * FrameworkConfig)) : M unit :=
  match items with
  | [] => mret ()
  | (_, config) :: items' =>
      print Plain (Str.of_nat i +:+ ". " +:+ display_name config);;
      print Plain ("   Language: " +:+ language config +:+ " " +:+ language_version config);;
      print Plain ("   Testing: " +:+ test_framework config +:+ " + " +:+ coverage_tool config);;
      print Plain ("   " +:+ description config +:+ nl);;
      list_frameworks_loop (S i) items'
  end.

Definition list_frameworks : M unit :=
  print_header "Available Frameworks";;
  list_frameworks_loop 1 FRAMEWORKS.

(** The prompt that [get_user_input] shows. *)
Definition full_prompt (prompt : string) (default : option string) : string :=
  if truthy default
  then prompt +:+ " [" +:+ or_empty default +:+ "]: "
  else prompt +:+ ": ".

Definition get_user_input (prompt : string) (default : option string) : M string :=
  let prompt := full_prompt prompt default in
  value ← input prompt;
  let value := Str.strip value in
  mret (match value with
        | EmptyString => or_empty default
        | _ => value
        end).

(** The [while True] loop of [select_framework].  Every round consumes
    one pending console input, so the pending inputs bound the rounds;
    with none left the prompt raises [EOFError]. *)
Fixpoint select_framework_loop (pending : list console_input) : M FrameworkConfig :=
  let ask :=
    get_user_input ("Select framework (1-" +:+ Str.of_nat (length FRAMEWORKS) +:+ ")")
                   (Some "1") in
  match pending with
  | [] => _ ← ask; raise EOFError
  | _ :: pending' =>
      choice ← ask;
      match int choice with
      | Some n =>
          let index := (n - 1)%Z in
          if bool_decide (0 ≤ index < Z.of_nat (length FRAMEWORKS))%Z
          then
            match FRAMEWORKS.*2 !! Z.to_nat index with
            | Some config =>
                print_success ("Selected: " +:+ display_name config);;
                mret config
            | None => raise IndexError
            end
          else
            print_error ("Please enter a number between 1 and " +:+
                         Str.of_nat (length FRAMEWORKS));;
            select_framework_loop pending'
      | None =>
          print_error "Please enter a valid number";;
          select_framework_loop pending'
      end
  end.

Definition select_framework : M FrameworkConfig := λ w,
  (list_frameworks;; select_framework_loop (stdin w)) w.

Definition get_project_config (framework : option string) (project_name : option string)
  : M ProjectConfig :=
  config ←
    (if truthy framework
     then
       match lookup (or_empty framework) with
       | None =>
           print_error ("Unknown framework: " +:+ or_empty framework);;
           raise (SystemExit 1)
       | Some config => mret config
       end
     else select_framework);
  project_name ←
    (if truthy project_name
     then mret (or_empty project_name)
     else get_user_input "Project name" (Some ("my-" +:+ name config +:+ "-project")));
  author ← get_user_input "Author name" (Some "Your Team");
  description ← get_user_input "Project description"
                  (Some ("A " +:+ display_name config +:+ " project"));
  gitlab_url ← get_user_input "GitLab URL (optional)" (Some "");
  coverage_threshold ← get_user_input "Coverage threshold" (Some "80");
  mret (mkConfig config project_name author description gitlab_url coverage_threshold).

(** The dictionary [replacements], in insertion order. *)
Definition replacements (now : datetime) (config : ProjectConfig) : list (string * string) :=
  let fc := framework_config config in [
    ("{{LANGUAGE}}", language fc);
    ("{{LANGUAGE_VERSION}}", language_version fc);
    ("{{FRAMEWORK}}", framework fc);
    ("{{PACKAGE_MANAGER}}", package_manager fc);
    ("{{TEST_FRAMEWORK}}", test_framework fc);
    ("{{COVERAGE_TOOL}}", coverage_tool fc);
    ("{{DOCKER_IMAGE}}", docker_image fc);
    ("{{PROJECT_NAME}}", project_name config);
    ("{{PROJECT_DESCRIPTION}}", project_description config);
    ("{{AUTHOR}}", author config);
    ("{{GITLAB_URL}}", gitlab_url config);
    ("{{COVERAGE_THRESHOLD}}", coverage_threshold config);
    ("{{GENERATION_DATE}}", strftime_ymd now);
    ("{{YEAR}}", Str.of_nat (year now))
  ].

(** The loop [for placeholder, value in replacements.items():
    result = result.replace(placeholder, value)]. *)
Definition replace_each (items : list (string * string)) (content : string) : string :=
  fold_left (λ result item, Str.replace item.1 item.2 result) items content.

(** [replace_variables]; both calls of [datetime.now()] read [now]. *)
Definition replace_variables (now : datetime) (content : string) (config : ProjectConfig)
  : string :=
  replace_each (replacements now config) content.

(** [ProjectGenerator(templates_dir)] *)
Record ProjectGenerator : Type := mkGenerator { templates_dir : list string }.

Definition frameworks_dir (self : ProjectGenerator) : list string :=
  templates_dir self ++ ["frameworks"].

Definition base_template (self : ProjectGenerator) : list string :=
  templates_dir self ++ ["COPILOT_INSTRUCTIONS.template.md"].

Definition get_clock : M datetime := λ w, Ok (clock w) w.
Definition get_fs : M (gmap (list string) node) := λ w, Ok (fs w) w.

(** [self.frameworks_dir / fc.name] *)
Definition framework_dir (self : ProjectGenerator) (config : ProjectConfig) : list string :=
  frameworks_dir self ++ [name (framework_config config)].

(** The loop of [copy_framework_template] over the entries that [rglob]
    yields; [copied_files] is the list built so far. *)
Fixpoint copy_loop (config : ProjectConfig) (framework_dir output_dir : list string)
    (entries : list (list string)) (copied_files : list (list string))
  : M (list (list string)) :=
  match entries with
  | [] => mret copied_files
  | file_path :: entries' =>
      m ← get_fs;
      if Path.is_file m file_path
      then
        let relative_path := Path.relative_to framework_dir file_path in
        let dest_path := output_dir ++ relative_path in
        Path.mkdir (Path.parent dest_path);;
        content ← Path.read_text file_path;
        now ← get_clock;
        let processed_content := replace_variables now content config in
        Path.write_text dest_path processed_content;;
        print_success ("Created: " +:+ Path.str relative_path);;
        copy_loop config framework_dir output_dir entries' (copied_files ++ [dest_path])
      else copy_loop config framework_dir output_dir entries' copied_files
  end.

(** [copy_framework_template].  The entries are listed from the tree as
    it stands when the loop starts; this is what the loop sees whenever
    the output directory lies outside the framework directory. *)
Definition copy_framework_template (self : ProjectGenerator) (config : ProjectConfig)
    (output_dir : list string) : M (list (list string)) :=
  let framework_dir := framework_dir self config in
  m ← get_fs;
  if negb (Path.exists_ m framework_dir)
  then
    print_warning ("Framework template not found: " +:+ Path.str framework_dir);;
    mret []
  else
    Path.mkdir output_dir;;
    m ← get_fs;
    copy_loop config framework_dir output_dir (Path.rglob m framework_dir) [].

Definition generate_from_base_template (self : ProjectGenerator) (config : ProjectConfig)
    (output_dir : list string) : M (option (list string)) :=
  m ← get_fs;
  if negb (Path.exists_ m (base_template self))
  then
    print_warning ("Base template not found: " +:+ Path.str (base_template self));;
    mret None
  else
    let output_file := output_dir ++ ["COPILOT_INSTRUCTIONS.md"] in
    Path.mkdir output_dir;;
    content ← Path.read_text (base_template self);
    now ← get_clock;
    let processed_content := replace_variables now content config in
    Path.write_text output_file processed_content;;
    print_success "Generated: COPILOT_INSTRUCTIONS.md";;
    mret (Some output_file).

(** The list [directories] that [create_directory_structure] picks for a
    language; a directory is the list of its components. *)
Definition directories (lang : string) : list (list string) :=
  if decide (lang = "Python") then
    [ ["src"; "services"]; ["src"; "config"]; ["src"; "operations"];
      ["src"; "utilities"]; ["tests"; "services"]; ["tests"; "config"];
      ["tests"; "operations"]; ["tests"; "utilities"] ]
  else if decide (lang = "TypeScript") then
    [ ["src"; "services"]; ["src"; "config"]; ["src"; "utils"]; ["src"; "types"];
      ["tests"; "services"]; ["tests"; "config"]; ["tests"; "utils"] ]
  else
    [ ["src"; "services"]; ["src"; "config"]; ["tests"; "services"];
      ["tests"; "config"] ].

Fixpoint create_directories_loop (output_dir : list string) (fw : FrameworkConfig)
    (dirs : list (list string)) : M unit :=
  match dirs with
  | [] => mret ()
  | dir_path :: dirs' =>
      let full_path := output_dir ++ dir_path in
      Path.mkdir full_path;;
      (if decide (language fw = "Python")
       then Path.touch (full_path ++ ["__init__.py"])
       else mret ());;
      create_directories_loop output_dir fw dirs'
  end.

Definition create_directory_structure (output_dir : list string) (fw : FrameworkConfig)
  : M unit :=
  create_directories_loop output_dir fw (directories (language fw));;
  print_success "Created directory structure".

Definition _get_install_command (fc : FrameworkConfig) : string :=
  if decide (package_manager fc = "Poetry") then "poetry install"
  else if decide (package_manager fc = "npm/yarn") then "npm install  # or: yarn install"
  else "# Install dependencies".

Definition _get_test_command (fc : FrameworkConfig) : string :=
  if decide (test_framework fc = "pytest") then "poetry run pytest --cov=src"
  else if decide (test_framework fc = "Jest") then "npm test  # or: yarn test"
  else if decide (test_framework fc = "Behave + pytest")
       then "poetry run behave && poetry run pytest"
  else "# Run tests".

Definition _get_run_command (fc : FrameworkConfig) : string :=
  if decide (framework fc = "FastAPI") then "poetry run uvicorn src.main:app --reload"
  else if decide (framework fc = "Express") then "npm start  # or: yarn start"
  else if decide (framework fc = "Behave") then "poetry run python src/main.py"
  else "# Run application".

Definition _get_structure_example (fc : FrameworkConfig) : string :=
  if decide (language fc = "Python") then
    Str.join nl [
      "src/";
      "├── services/     # Business logic";
      "├── config/       # Configuration";
      "├── operations/   # Complex operations";
      "├── utilities/    # Helper functions";
      "└── main.py       # Entry point";
      "";
      "tests/";
      "├── services/     # Service tests";
      "└── test_*.py     # Other tests" ]
  else if decide (language fc = "TypeScript") then
    Str.join nl [
      "src/";
      "├── services/     # Business logic";
      "├── config/       # Configuration";
      "├── utils/        # Utilities";
      "├── types/        # Type definitions";
      "└── index.ts      # Entry point";
      "";
      "tests/";
      "├── services/     # Service tests";
      "└── *.test.ts     # Test files" ]
  else
    Str.join nl [
      "src/";
      "└── main.*        # Entry point";
      "";
      "tests/";
      "└── test_*.*      # Tests" ].

(** The text of the README: every line of the f-string, each closed by a
    newline. *)
Definition readme_content (now : datetime) (config : ProjectConfig) : string :=
  let fc := framework_config config in
  String.concat EmptyString (map (λ line, line +:+ nl) [
    "# " +:+ project_name config;
    "";
    project_description config;
    "";
    "## Stack";
    "";
    "- **Language**: " +:+ language fc +:+ " " +:+ language_version fc;
    "- **Framework**: " +:+ framework fc;
    "- **Package Manager**: " +:+ package_manager fc;
    "- **Testing**: " +:+ test_framework fc +:+ " + " +:+ coverage_tool fc;
    "- **CI/CD**: GitLab CI/CD";
    "";
    "## Getting Started";
    "";
    "### Prerequisites";
    "";
    "- " +:+ language fc +:+ " " +:+ language_version fc;
    "- " +:+ package_manager fc;
    "- Docker";
    "";
    "### Installation";
    "";
    "```bash";
    "# Install dependencies";
    _get_install_command fc;
    "";
    "# Run tests";
    _get_test_command fc;
    "";
    "# Run application";
    _get_run_command fc;
    "```";
    "";
    "## Project Structure";
    "";
    "```";
    _get_structure_example fc;
    "```";
    "";
    "## Development";
    "";
    "See `COPILOT_INSTRUCTIONS.md` for detailed coding standards and guidelines.";
    "";
    "## Testing";
    "";
    "- Minimum coverage: " +:+ coverage_threshold config +:+ "%";
    "- All code must have corresponding tests";
    "";
    "## CI/CD";
    "";
    "Pipeline stages: `lint` → `test` → `build` → `deploy`";
    "";
    "See `.gitlab-ci.yml` for details.";
    "";
    "## Author";
    "";
    author config;
    "";
    "## Generated";
    "";
    "This project was generated on " +:+ strftime_ymd now +:+
      " using the project template system." ]).

Definition generate_readme (config : ProjectConfig) (output_dir : list string) : M unit :=
  now ← get_clock;
  Path.write_text (output_dir ++ ["README.md"]) (readme_content now config);;
  print_success "Generated: README.md".

(** [output_dir.exists() and any(output_dir.iterdir())]; listing a
    regular file raises [NotADirectoryError]. *)
Definition exists_and_nonempty (output_dir : list string) : M bool :=
  m ← get_fs;
  if Path.exists_ m output_dir
  then
    if Path.is_dir m output_dir
    then mret (bool_decide (Path.iterdir m output_dir ≠ []))
    else raise (OSError ENOTDIR output_dir)
  else mret false.

(** The steps of [generate_project] behind the templates: the directory
    skeleton, the README and the closing messages. *)
Definition finish_project (config : ProjectConfig) (output_dir : list string) : M unit :=
  let fc := framework_config config in
  create_directory_structure output_dir fc;;
  generate_readme config output_dir;;
  print_header "Project Generation Complete!";;
  print_success ("Project created at: " +:+ Path.str output_dir);;
  print_info (nl +:+ "Next steps:");;
  print Plain ("  1. cd " +:+ Path.str output_dir);;
  print Plain "  2. Review COPILOT_INSTRUCTIONS.md";;
  print Plain ("  3. " +:+ _get_install_command fc);;
  print Plain ("  4. Start coding!" +:+ nl).

(** What [generate_project] does once the overwrite question is
    settled. *)
Definition generate_files (self : ProjectGenerator) (config : ProjectConfig)
    (output_dir : list string) (use_framework_template : bool) : M unit :=
  let fc := framework_config config in
  (if use_framework_template
   then
     copied_files ← copy_framework_template self config output_dir;
     match copied_files with
     | [] =>
         print_info "No framework template found, using base template";;
         _ ← generate_from_base_template self config output_dir;
         mret ()
     | _ :: _ => mret ()
     end
   else
     _ ← generate_from_base_template self config output_dir;
     mret ());;
  finish_project config output_dir.

Definition generate_project (self : ProjectGenerator) (output_dir : list string)
    (framework : option string) (project_name : option string)
    (use_framework_template : bool) : M unit :=
  print_header "Project Template Generator";;
  config ← get_project_config framework project_name;
  let fc := framework_config config in
  print_info (nl +:+ "Generating " +:+ display_name fc +:+ " project...");;
  print_info ("Output directory: " +:+ Path.str output_dir +:+ nl);;
  occupied ← exists_and_nonempty output_dir;
  if (occupied : bool)
  then
    response ← get_user_input
      ("Directory " +:+ Path.str output_dir +:+ " is not empty. Continue? (y/N)")
      (Some "n");
    if decide (Str.lower response ≠ "y")
    then print_warning "Generation cancelled"
    else generate_files self config output_dir use_framework_template
  else generate_files self config output_dir use_framework_template.

(** [choices=list(FRAMEWORKS.keys())]: what [parse_args] lets through
    as the framework. *)
Definition choice (framework : option string) : bool :=
  match framework with
  | Some key => bool_decide (key ∈ FRAMEWORKS.*1)
  | None => true
  end.

(** The command line as [parse_args] returns it: the framework, when
    given, is one of the choices ([parse_args] ends the process with
    status 2 otherwise). *)
Record Args : Type := mkArgs {
  arg_framework : option string;
  arg_name : option string;
  arg_output : list string;
  arg_base_only : bool;
  arg_list : bool;
  arg_framework_choice : Is_true (choice arg_framework)
}.

(** [str(e)], the text of an exception in the message of the last
    handler. *)
Definition exn_text (e : exn) : string :=
  match e with
  | OSError ENOENT p => "[Errno 2] No such file or directory: " +:+ Str.repr (Path.str p)
  | OSError EEXIST p => "[Errno 17] File exists: " +:+ Str.repr (Path.str p)
  | OSError ENOTDIR p => "[Errno 20] Not a directory: " +:+ Str.repr (Path.str p)
  | OSError EISDIR p => "[Errno 21] Is a directory: " +:+ Str.repr (Path.str p)
  | UnicodeDecodeError error =>
      if decide (Str.error_size error = 1)
      then "'utf-8' codec can't decode byte 0x" +:+ Str.hex (Str.byte (Str.error_byte error))
           +:+ " in position " +:+ Str.of_nat (Str.error_start error)
           +:+ ": " +:+ Str.error_reason error
      else "'utf-8' codec can't decode bytes in position "
           +:+ Str.of_nat (Str.error_start error) +:+ "-"
           +:+ Str.of_nat (Str.error_start error + Str.error_size error - 1)
           +:+ ": " +:+ Str.error_reason error
  | EOFError => "EOF when reading a line"
  | IndexError => "list index out of range"
  | KeyboardInterrupt => ""
  | SystemExit status => Str.of_nat status
  end.

(** The world after a [print] in a handler. *)
Definition printed (st : style) (text : string) (w : world) : world :=
  match print st text w with
  | Ok _ w' => w'
  | Raise _ w' => w'
  end.

(** [main] once [parse_args] has returned, for the script living in
    [script_dir]: the exit status of the process and the world it
    leaves.  A plain return exits with 0; [SystemExit] is not an
    [Exception] and passes through both handlers. *)
Definition main (script_dir : list string) (args : Args) (w : world) : nat * world :=
  let generator := mkGenerator script_dir in
  if arg_list args
  then
    match list_frameworks w with
    | Ok _ w' => (0, w')
    | Raise _ w' => (1, w')
    end
  else
    match generate_project generator (arg_output args) (arg_framework args)
            (arg_name args) (negb (arg_base_only args)) w with
    | Ok _ w' => (0, w')
    | Raise KeyboardInterrupt w' =>
        (1, printed Warning (nl +:+ "Generation cancelled by user") w')
    | Raise (SystemExit status) w' => (status, w')
    | Raise e w' => (1, printed Failure (nl +:+ "Error: " +:+ exn_text e) w')
    end.

(** ** Notions used to state the properties of the generator *)

(** [w'] has the files, the log of writes and the clock of [w]. *)
Definition same_files (w w' : world) : Prop :=
  fs w' = fs w ∧ written w' = written w ∧ clock w' = clock w.

(** A computation that only talks to the console. *)
Definition console_only {A : Type} (m : M A) : Prop :=
  ∀ w, match m w with
       | Ok _ w' => same_files w w'
       | Raise _ w' => same_files w w'
       end.

(** No regular file stands where [p] or one of its ancestors is to be
    a directory. *)
Definition clear_path (m : gmap (list string) node) (p : list string) : Prop :=
  ∀ q, q ∈ Path.ancestors p → Path.is_file m q = false.

(** The package marker of the directory [d] below [output_dir]. *)
Definition marker (output_dir d : list string) : list string :=
  (output_dir ++ d) ++ ["__init__.py"].

(** No marker of one listed directory lies on the way to another. *)
Definition markers_apart (dirs : list (list string)) : Prop :=
  ∀ d d', d ∈ dirs → d' ∈ dirs → ¬ (d ++ ["__init__.py"]) `prefix_of` d'.

(** The nodes that [create_directory_structure] adds where nothing is
    yet: the listed directories with their ancestors and, with [python],
    an empty marker in each listed directory. *)
Fixpoint skeleton (output_dir : list string) (python : bool) (dirs : list (list string))
  : gmap (list string) node :=
  match dirs with
  | [] => ∅
  | d :: dirs' =>
      (Path.dirs_of (output_dir ++ d)
       ∪ (if python then {[ marker output_dir d := File EmptyString ]} else ∅))
      ∪ skeleton output_dir python dirs'
  end.

(** Every node lies in directories: the ancestors of a path that
    exists are directories. *)
Definition well_formed (m : gmap (list string) node) : Prop :=
  ∀ p q, is_Some (m !! p) → q ∈ Path.ancestors p → q ≠ p → m !! q = Some Dir.

Definition same_kind (n n' : node) : Prop :=
  match n, n' with
  | File _, File _ => True
  | Dir, Dir => True
  | _, _ => False
  end.

Global Instance same_kind_dec n n' : Decision (same_kind n n').
Proof. destruct n, n'; simpl; apply _. Defined.

(** Neither of the two directories lies in the other. *)
Definition apart (p q : list string) : Prop :=
  ¬ p `prefix_of` q ∧ ¬ q `prefix_of` p.

(** Where the output directory already has a node at a place of the
    template tree, it is of the same kind (as after an earlier run). *)
Definition receives (m : gmap (list string) node) (framework_dir output_dir : list string)
  : Prop :=
  ∀ rel n n', rel ≠ [] →
    m !! (framework_dir ++ rel) = Some n → m !! (output_dir ++ rel) = Some n' →
    same_kind n n'.

(** The text of the regular file at [p]. *)
Definition content_at (m : gmap (list string) node) (p : list string) : string :=
  match m !! p with
  | Some (File content) => content
  | _ => EmptyString
  end.

(** The regular files among the entries that [copy_framework_template]
    lists: the listing happens once the output directory is made. *)
Definition template_files (m : gmap (list string) node) (framework_dir output_dir : list string)
  : list (list string) :=
  filter (λ p, Path.is_file m p = true)
         (Path.rglob (m ∪ Path.dirs_of output_dir) framework_dir).

(** Where the template file [p] is copied to. *)
Definition destination (framework_dir output_dir p : list string) : list string :=
  output_dir ++ Path.relative_to framework_dir p.

(** What holds of the file system [m] all along the loop of
    [copy_framework_template] started on [m0]: the template tree is as
    it was, the output tree receives it, and the output directory
    exists. *)
Definition copy_inv (m0 : gmap (list string) node) (framework_dir output_dir : list string)
    (m : gmap (list string) node) : Prop :=
  (∀ p, framework_dir `prefix_of` p → m !! p = m0 !! p)
  ∧ (∀ rel n n', rel ≠ [] →
       m0 !! (framework_dir ++ rel) = Some n → m !! (output_dir ++ rel) = Some n' →
       same_kind n n')
  ∧ (∀ q, q ∈ Path.ancestors output_dir → m !! q = Some Dir).

(** The text that the copy of the template file [p] gets: what reading
    [p] gives, with the placeholders replaced. *)
Definition copied_text (now : datetime) (config : ProjectConfig)
    (m0 : gmap (list string) node) (p : list string) : string :=
  replace_variables now (Str.universal_newlines (content_at m0 p)) config.

(** The regular files below [framework_dir] hold texts in UTF-8. *)
Definition texts_below (m : gmap (list string) node) (framework_dir : list string) : Prop :=
  ∀ p content, framework_dir `prefix_of` p → m !! p = Some (File content) →
               Str.well_encoded content = true.

(** Executable checks of [well_formed], [texts_below] and [receives]. *)
Definition texts_below_check (m : gmap (list string) node) (framework_dir : list string)
  : bool :=
  forallb (λ item : list string * node,
             match item.2 with
             | File content =>
                 negb (bool_decide (framework_dir `prefix_of` item.1))
                 || Str.well_encoded content
             | Dir => true
             end)
          (map_to_list m).

Definition well_formed_check (m : gmap (list string) node) : bool :=
  forallb (λ item : list string * node,
             forallb (λ q, bool_decide (q = item.1) || Path.is_dir m q)
                     (Path.ancestors item.1))
          (map_to_list m).

Definition receives_check (m : gmap (list string) node)
    (framework_dir output_dir : list string) : bool :=
  forallb (λ item : list string * node,
             if bool_decide (framework_dir `prefix_of` item.1)
             then match m !! (output_dir ++ Path.relative_to framework_dir item.1) with
                  | Some n' => bool_decide (same_kind item.2 n')
                               || bool_decide (item.1 = framework_dir)
                  | None => true
                  end
             else true)
          (map_to_list m).

(** What [get_user_input] returns for the entered line. *)
Definition answer (entered : string) (default : option string) : string :=
  match Str.strip entered with
  | EmptyString => or_empty default
  | value => value
  end.

(** The framework that an entry at the selection prompt stands for,
    if any: the entry (the default is [1]) must read as a number between
    1 and the number of frameworks. *)
Definition selects (entered : string) : option FrameworkConfig :=
  match int (answer entered (Some "1")) with
  | Some n =>
      if bool_decide (0 ≤ n - 1 < Z.of_nat (length FRAMEWORKS))%Z
      then FRAMEWORKS.*2 !! Z.to_nat (n - 1)
      else None
  | None => None
  end.

(** The prompt of [select_framework]. *)
Definition selection_prompt : string :=
  full_prompt ("Select framework (1-" +:+ Str.of_nat (length FRAMEWORKS) +:+ ")") (Some "1").

Global Instance style_eq_dec : EqDecision style.
Proof. solve_decision. Defined.

(** The number of error messages among the printed ones. *)
Definition failures (messages : list (style * string)) : nat :=
  length (filter (λ message, message.1 = Failure) messages).

(** The four lines that [list_frameworks] prints for the entry of
    index [i] (from 0). *)
Definition framework_lines (i : nat) (item : string * FrameworkConfig)
  : list (style * string) :=
  let config := item.2 in
  [ (Plain, Str.of_nat (S i) +:+ ". " +:+ display_name config);
    (Plain, "   Language: " +:+ language config +:+ " " +:+ language_version config);
    (Plain, "   Testing: " +:+ test_framework config +:+ " + " +:+ coverage_tool config);
    (Plain, "   " +:+ description config +:+ nl) ].

(** The world at the end of a computation, however it ends. *)
Definition final_world {A : Type} (o : outcome A) : world :=
  match o with
  | Ok _ w' => w'
  | Raise _ w' => w'
  end.

(** The exceptions that come from the console: an interrupt at a
    prompt, the end of the input. *)
Definition console_end (e : exn) : Prop := e = KeyboardInterrupt ∨ e = EOFError.

(** A computation that raises exceptions of one sort only. *)
Definition raises_only {A : Type} (sort : exn → Prop) (m : M A) : Prop :=
  ∀ w e w', m w = Raise e w' → sort e.

(** A computation that keeps every node of the file system as it is,
    may add nodes, and opens no file for writing. *)
Definition only_adds {A : Type} (m : M A) : Prop :=
  ∀ w, fs w ⊆ fs (final_world (m w))
       ∧ written (final_world (m w)) = written w
       ∧ stdin (final_world (m w)) = stdin w.

(** [w'] keeps every node of [w] that is not at or below [output_dir],
    and the files opened for writing on the way from [w] to [w'] are all
    below [output_dir]. *)
Definition confined_step (output_dir : list string) (w w' : world) : Prop :=
  (∀ p n, fs w !! p = Some n → ¬ output_dir `prefix_of` p → fs w' !! p = Some n)
  ∧ ∃ log, written w' = written w ++ log
           ∧ Forall (λ entry, output_dir `prefix_of` entry.1) log.

(** A computation that stays within [output_dir], however it ends. *)
Definition confined {A : Type} (output_dir : list string) (m : M A) : Prop :=
  ∀ w, confined_step output_dir w (final_world (m w)).

(** The texts that every README shows. *)
Definition readme_items (now : datetime) (config : ProjectConfig) : list string :=
  let fc := framework_config config in
  [ "# " +:+ project_name config; project_description config;
    language fc +:+ " " +:+ language_version fc; framework fc; package_manager fc;
    test_framework fc +:+ " + " +:+ coverage_tool fc;
    _get_install_command fc; _get_test_command fc; _get_run_command fc;
    _get_structure_example fc;
    "- Minimum coverage: " +:+ coverage_threshold config +:+ "%";
    author config; strftime_ymd now ].

(** ** Notions used to state the properties of [replace_variables] *)

(** The keys of [replacements]. *)
Definition PLACEHOLDERS : list string := [
  "{{LANGUAGE}}"; "{{LANGUAGE_VERSION}}"; "{{FRAMEWORK}}"; "{{PACKAGE_MANAGER}}";
  "{{TEST_FRAMEWORK}}"; "{{COVERAGE_TOOL}}"; "{{DOCKER_IMAGE}}"; "{{PROJECT_NAME}}";
  "{{PROJECT_DESCRIPTION}}"; "{{AUTHOR}}"; "{{GITLAB_URL}}"; "{{COVERAGE_THRESHOLD}}";
  "{{GENERATION_DATE}}"; "{{YEAR}}"
].

(** The entry of [table] whose placeholder starts [s], if any. *)
Definition find_token (table : list (string * string)) (s : string)
  : option (string * string) :=
  List.find (λ item, Str.startswith item.1 s) table.

(** Substitution in one pass over the original text: each placeholder
    found in [s] is replaced by its value, and inserted values are never
    searched again. *)
Fixpoint substitute_from (table : list (string * string)) (skip : nat) (s : string)
  : string :=
  match s with
  | EmptyString => EmptyString
  | String c s' =>
      match skip with
      | S k => substitute_from table k s'
      | O =>
          match find_token table s with
          | Some (t, v) => v +:+ substitute_from table (String.length t - 1) s'
          | None => String c (substitute_from table 0 s')
          end
      end
  end.

Definition substitute_single_pass (table : list (string * string)) (s : string) : string :=
  substitute_from table 0 s.

(** [s] has no opening brace. *)
Definition brace_free (s : string) : Prop := Str.has_char "{" s = false.

(** A placeholder: two opening braces, then at least one character, and
    no further opening brace. *)
Definition token_shaped (t : string) : bool :=
  match t with
  | String a (String b (String c u)) =>
      bool_decide (a = "{"%char) && bool_decide (b = "{"%char)
      && negb (Str.has_char "{" (String c u))
  | _ => false
  end.

(** Wherever [s] has two opening braces in a row, one of [keys] starts
    there. *)
Fixpoint braces_ok (keys : list string) (s : string) : bool :=
  match s with
  | EmptyString => true
  | String _ s' =>
      (if Str.startswith "{{" s then existsb (λ t, Str.startswith t s) keys else true)
      && braces_ok keys s'
  end.

(** [s] shows the syntax of a placeholder: two opening braces and,
    behind them, two closing ones. *)
Fixpoint token_syntax (s : string) : bool :=
  match s with
  | EmptyString => false
  | String _ s' =>
      (Str.startswith "{{" s && Str.contains "}}" (Str.drop 2 s)) || token_syntax s'
  end.

(** No key is the beginning of another one. *)
Definition prefix_free (keys : list string) : Prop :=
  ∀ t t', t ∈ keys → t' ∈ keys → Str.startswith t t' = true → t = t'.

Definition shaped (table : list (string * string)) : Prop :=
  Forall (λ item, token_shaped item.1 = true) table.

(** A table of placeholders and values for which chained replacement
    cannot meet a placeholder that it built itself. *)
Definition table_ok (table : list (string * string)) : Prop :=
  Forall (λ item, token_shaped item.1 = true ∧ brace_free item.2) table
  ∧ prefix_free table.*1
  ∧ NoDup table.*1.

(** The values of a configuration that the user or the registry
    supplies. *)
Definition config_values (config : ProjectConfig) : list string :=
  let fc := framework_config config in
  [ language fc; language_version fc; framework fc; package_manager fc;
    test_framework fc; coverage_tool fc; docker_image fc; project_name config;
    project_description config; author config; gitlab_url config;
    coverage_threshold config ].

(** ** Sample data *)

Definition fastapi : FrameworkConfig :=
  mkFramework "python-fastapi" "Python + FastAPI" "Python" "FastAPI" "Poetry"
    "pytest" "pytest-cov" "python:3.11-slim" "3.11.x"
    "Modern Python web API with FastAPI, Poetry, and pytest".

(** The configuration that the defaults give for [fastapi], with the
    project name [demo]. *)
Definition demo_config : ProjectConfig :=
  mkConfig fastapi "demo" "Your Team" "A Python + FastAPI project" "" "80".

Definition demo_date : datetime := mkDate 2026 3 7.

(** A configuration whose author holds a token. *)
Definition braced_config : ProjectConfig :=
  mkConfig fastapi "demo" "{{TEAM}}" "A Python + FastAPI project" "" "80".

(** A configuration whose project name is itself a placeholder. *)
Definition nested_config : ProjectConfig :=
  mkConfig fastapi "{{AUTHOR}}" "Ann" "A Python + FastAPI project" "" "80".

(** A template with every placeholder exactly once. *)
Definition full_template : string :=
  "# {{PROJECT_NAME}}: {{PROJECT_DESCRIPTION}} by {{AUTHOR}} ({{GITLAB_URL}})" +:+ nl +:+
  "{{LANGUAGE}} {{LANGUAGE_VERSION}}, {{FRAMEWORK}}, {{PACKAGE_MANAGER}}, " +:+
  "{{TEST_FRAMEWORK}} + {{COVERAGE_TOOL}} >= {{COVERAGE_THRESHOLD}}%" +:+ nl +:+
  "FROM {{DOCKER_IMAGE}}" +:+ nl +:+
  "(c) {{YEAR}}, generated {{GENERATION_DATE}}" +:+ nl.

(** The same template with a placeholder that the generator does not
    know. *)
Definition template_with_unknown : string := full_template +:+ "{{NOTES}}" +:+ nl.

(** An output directory that holds a file, a console that accepts the
    defaults and then answers the overwrite question with [n]. *)
Definition occupied_world : world :=
  mkWorld (list_to_map [ (["out"], Dir); (["out"; "notes.txt"], File "keep") ])
          [Line ""; Line ""; Line ""; Line ""; Line "n"] [] [] demo_date.

(** A world without any file, with the clock at [demo_date]. *)
Definition empty_world : world := mkWorld ∅ [] [] [] demo_date.

(** A template directory with the base template only. *)
Definition base_only_world : world :=
  mkWorld (list_to_map [ (["templates"], Dir);
                         (["templates"; "COPILOT_INSTRUCTIONS.template.md"],
                          File "Rules for {{PROJECT_NAME}} by {{AUTHOR}}") ])
          [] [] [] demo_date.

(** The template tree of one file [foo/bar.txt]. *)
Definition template_world : world :=
  mkWorld (list_to_map [
             (["templates"], Dir);
             (["templates"; "frameworks"], Dir);
             (["templates"; "frameworks"; "python-fastapi"], Dir);
             (["templates"; "frameworks"; "python-fastapi"; "foo"], Dir);
             (["templates"; "frameworks"; "python-fastapi"; "foo"; "bar.txt"],
              File "Hello {{PROJECT_NAME}}") ])
          [] [] [] demo_date.

(** The same tree with other bytes in the file. *)
Definition template_world_with (content : string) : world :=
  set_fs (<[ ["templates"; "frameworks"; "python-fastapi"; "foo"; "bar.txt"]
             := File content ]> (fs template_world)) template_world.

(** A no-break space, U+00A0. *)
Definition no_break_space : string :=
  String (ascii_of_nat 194) (String (ascii_of_nat 160) EmptyString).

Definition behave : FrameworkConfig :=
  mkFramework "python-behave" "Python + Behave (BDD)" "Python" "Behave"
    "Poetry" "Behave + pytest" "coverage.py" "python:3.11-slim" "3.11.x"
    "Behavior-driven development with Behave and Python".

(** A console on which the user interrupts at the first question. *)
Definition interrupted_world : world := mkWorld ∅ [CtrlC] [] [] demo_date.

(** A template directory with the base template, and a console that
    accepts the defaults. *)
Definition base_template_world : world :=
  mkWorld (list_to_map [ (["templates"], Dir);
                         (["templates"; "COPILOT_INSTRUCTIONS.template.md"],
                          File "Rules for {{PROJECT_NAME}} by {{AUTHOR}}") ])
          [Line ""; Line ""; Line ""; Line ""] [] [] demo_date.

(** A file system in which the output path is a regular file. *)
Definition blocked_world : world :=
  mkWorld (list_to_map [ (["out"], File "not a directory") ])
          [Line ""; Line ""; Line ""; Line ""] [] [] demo_date.

Definition demo_args : Args :=
  mkArgs (Some "python-fastapi") (Some "demo") ["out"] false false I.

(** ** Strings: basic facts *)

Section StringFacts.

Implicit Types s t r u v : string.

Lemma str_app_cons c s t : String c s +:+ t = String c (s +:+ t).
Proof. done. Qed.

Lemma str_app_nil_l s : "" +:+ s = s.
Proof. done. Qed.

Lemma str_app_nil_r s : s +:+ "" = s.
Proof. induction s as [|c s IH]; simpl; [done | by f_equal]. Qed.

Lemma str_app_assoc s t r : (s +:+ t) +:+ r = s +:+ t +:+ r.
Proof. induction s as [|c s IH]; simpl; [done | by f_equal]. Qed.

Lemma startswith_cons a t b s :
  Str.startswith (String a t) (String b s) = if decide (a = b) then Str.startswith t s else false.
Proof. done. Qed.

Lemma startswith_app t r : Str.startswith t (t +:+ r) = true.
Proof. induction t as [|c t IH]; simpl; [done |]. by rewrite decide_True. Qed.

Lemma startswith_split t s :
  Str.startswith t s = true → s = t +:+ Str.drop (String.length t) s.
Proof.
  revert s. induction t as [|a t IH]; intros [|b s]; simpl; try done.
  case_decide; [|done]. intros Hs. subst b. f_equal. by apply IH.
Qed.

Lemma startswith_app_inv t s r :
  Str.startswith t (s +:+ r) = true →
  Str.startswith t s = true ∨ Str.startswith s t = true.
Proof.
  revert s. induction t as [|a t IH]; intros [|b s]; simpl; auto.
  case_decide; [|done]. subst b. rewrite decide_True by done. apply IH.
Qed.

Lemma startswith_weaken t s r :
  Str.startswith t s = true → Str.startswith t (s +:+ r) = true.
Proof.
  revert s. induction t as [|a t IH]; intros [|b s]; simpl; try done.
  case_decide; [|done]. apply IH.
Qed.

Lemma str_drop_app t r : Str.drop (String.length t) (t +:+ r) = r.
Proof. induction t as [|c t IH]; simpl; [by destruct r | done]. Qed.

Lemma str_length_app s t : String.length (s +:+ t) = String.length s + String.length t.
Proof. induction s as [|c s IH]; simpl; [done | by f_equal]. Qed.

Lemma has_char_app c s t :
  Str.has_char c (s +:+ t) = Str.has_char c s || Str.has_char c t.
Proof. induction s as [|a s IH]; simpl; [done |]. case_decide; [done | apply IH]. Qed.

Lemma contains_nil_r t : Str.contains t "" = Str.startswith t "".
Proof. destruct t; simpl; done. Qed.

End StringFacts.

(** ** The two scans, one step at a time *)

Section Scanning.

Implicit Types s t r u v old new : string.
Implicit Types table : list (string * string).

Lemma replace_from_skip old new k s :
  Str.replace_from old new k s = Str.replace_from old new 0 (Str.drop k s).
Proof.
  revert k. induction s as [|c s IH]; intros [|k]; try done.
  simpl Str.drop. rewrite <- IH. done.
Qed.

Lemma replace_match old new s :
  old ≠ "" → Str.startswith old s = true →
  Str.replace_from old new 0 s =
  new +:+ Str.replace_from old new 0 (Str.drop (String.length old) s).
Proof.
  intros Hold Hs. destruct s as [|c s].
  - destruct old; [done | discriminate].
  - cbn [Str.replace_from]. rewrite Hs, replace_from_skip.
    destruct old as [|a old]; [done |]. simpl. by rewrite Nat.sub_0_r.
Qed.

Lemma replace_token old new r :
  old ≠ "" →
  Str.replace_from old new 0 (old +:+ r) = new +:+ Str.replace_from old new 0 r.
Proof.
  intros Hold. rewrite replace_match, str_drop_app by (done || apply startswith_app). done.
Qed.

Lemma replace_nomatch old new c s :
  Str.startswith old (String c s) = false →
  Str.replace_from old new 0 (String c s) = String c (Str.replace_from old new 0 s).
Proof. intros Hs. cbn [Str.replace_from]. by rewrite Hs. Qed.

Lemma replace_nonempty old new s :
  old ≠ "" → Str.replace old new s = Str.replace_from old new 0 s.
Proof. by destruct old. Qed.

Lemma substitute_from_skip table k s :
  substitute_from table k s = substitute_from table 0 (Str.drop k s).
Proof.
  revert k. induction s as [|c s IH]; intros [|k]; try done.
  simpl Str.drop. rewrite <- IH. done.
Qed.

Lemma substitute_match table s t v :
  t ≠ "" → find_token table s = Some (t, v) →
  substitute_from table 0 s =
  v +:+ substitute_from table 0 (Str.drop (String.length t) s).
Proof.
  intros Ht Hs. destruct s as [|c s].
  - apply find_some in Hs as [_ Hs]. destruct t; [done | discriminate].
  - cbn [substitute_from]. rewrite Hs, substitute_from_skip.
    destruct t as [|a t]; [done |]. simpl. by rewrite Nat.sub_0_r.
Qed.

Lemma substitute_nomatch table c s :
  find_token table (String c s) = None →
  substitute_from table 0 (String c s) = String c (substitute_from table 0 s).
Proof. intros Hs. cbn [substitute_from]. by rewrite Hs. Qed.

(** A text that none of the placeholders occurs in is left alone. *)
Lemma replace_absent old new s :
  old ≠ "" → Str.contains old s = false → Str.replace_from old new 0 s = s.
Proof.
  intros Hold. induction s as [|c s IH]; [done |].
  cbn [Str.contains]. intros [Hhead Htail]%orb_false_iff.
  rewrite replace_nomatch by done. f_equal. by apply IH.
Qed.

Lemma replace_each_absent table s :
  Forall (λ item, item.1 ≠ "" ∧ Str.contains item.1 s = false) table →
  replace_each table s = s.
Proof.
  unfold replace_each. induction 1 as [|[t v] table [Ht Hs] _ IH]; [done |].
  simpl. rewrite replace_nonempty, replace_absent by done. exact IH.
Qed.

End Scanning.

(** ** Placeholders in a text *)

Section Tokens.

Implicit Types s t r u v w old new : string.
Implicit Types table : list (string * string).
Implicit Types keys : list string.

Lemma token_shaped_inv t :
  token_shaped t = true →
  ∃ c u, t = String "{" (String "{" (String c u)) ∧ c ≠ "{"%char ∧ brace_free u.
Proof.
  destruct t as [|a [|b [|c u]]]; try done. unfold token_shaped, brace_free.
  intros [[Ha%bool_decide_eq_true Hb%bool_decide_eq_true]%andb_true_iff
          Hu%negb_true_iff]%andb_true_iff.
  subst a b. simpl in Hu. destruct (decide (c = "{"%char)); [done |].
  by exists c, u.
Qed.

Lemma token_shaped_nonempty t : token_shaped t = true → t ≠ "".
Proof. by destruct t. Qed.

Lemma head_brace a s : Str.startswith "{" (String a s) = false ↔ a ≠ "{"%char.
Proof. simpl. case_decide; naive_solver. Qed.

(** A placeholder starts with an opening brace... *)
Lemma token_needs_brace t s :
  token_shaped t = true → Str.startswith "{" s = false → Str.startswith t s = false.
Proof.
  intros (c & u & -> & _)%token_shaped_inv. destruct s as [|a s]; [done |].
  intros Ha%head_brace. simpl. by rewrite decide_False by congruence.
Qed.

(** ... and with a second one behind it. *)
Lemma token_needs_second_brace t s :
  token_shaped t = true → Str.startswith "{" s = false →
  Str.startswith t (String "{" s) = false.
Proof.
  intros (c & u & -> & _)%token_shaped_inv. destruct s as [|a s].
  - done.
  - intros Ha%head_brace. simpl. rewrite ?decide_True by done.
    by rewrite decide_False by congruence.
Qed.

Lemma brace_free_cons c u : brace_free (String c u) ↔ c ≠ "{"%char ∧ brace_free u.
Proof.
  unfold brace_free. simpl. case_decide.
  - split; [done | by intros [? _]].
  - split; [done | by intros [_ ?]].
Qed.

Lemma brace_free_app u v : brace_free (u +:+ v) ↔ brace_free u ∧ brace_free v.
Proof. unfold brace_free. rewrite has_char_app, orb_false_iff. done. Qed.

Lemma no_brace_head c s : c ≠ "{"%char → Str.startswith "{" (String c s) = false.
Proof. intros Hc. by apply head_brace. Qed.

Lemma find_token_none table s :
  find_token table s = None ↔ Forall (λ item, Str.startswith item.1 s = false) table.
Proof.
  unfold find_token. induction table as [|item table IH]; simpl.
  - split; [constructor | done].
  - destruct (Str.startswith item.1 s) eqn:Hs.
    + split; [done |]. intros Hall. apply Forall_cons in Hall as [Hitem _]. congruence.
    + rewrite IH. split; [by constructor | by intros [_ ?]%Forall_cons].
Qed.

Lemma find_token_no_brace table s :
  shaped table → Str.startswith "{" s = false → find_token table s = None.
Proof.
  intros Hsh Hs. apply find_token_none. eapply Forall_impl; [exact Hsh |].
  intros item Hitem. by apply token_needs_brace.
Qed.

Lemma find_token_single_brace table s :
  shaped table → Str.startswith "{" s = false → find_token table (String "{" s) = None.
Proof.
  intros Hsh Hs. apply find_token_none. eapply Forall_impl; [exact Hsh |].
  intros item Hitem. by apply token_needs_second_brace.
Qed.

(** Text without opening braces passes through both scans. *)
Lemma replace_brace_free old new w r :
  token_shaped old = true → brace_free w →
  Str.replace_from old new 0 (w +:+ r) = w +:+ Str.replace_from old new 0 r.
Proof.
  intros Hold. induction w as [|c w IH]; [done |].
  intros [Hc Hw]%brace_free_cons. rewrite !str_app_cons.
  rewrite replace_nomatch by (apply token_needs_brace; [done | by apply no_brace_head]).
  f_equal. by apply IH.
Qed.

Lemma substitute_brace_free table w r :
  shaped table → brace_free w →
  substitute_from table 0 (w +:+ r) = w +:+ substitute_from table 0 r.
Proof.
  intros Hsh. induction w as [|c w IH]; [done |].
  intros [Hc Hw]%brace_free_cons. rewrite !str_app_cons.
  rewrite substitute_nomatch by (apply find_token_no_brace; [done | by apply no_brace_head]).
  f_equal. by apply IH.
Qed.

(** Another placeholder passes through the replacement of [old]. *)
Lemma replace_other_token old new t r :
  token_shaped old = true → token_shaped t = true →
  Str.startswith old (t +:+ r) = false →
  Str.replace_from old new 0 (t +:+ r) = t +:+ Str.replace_from old new 0 r.
Proof.
  intros Hold (c & u & -> & Hc & Hu)%token_shaped_inv Hno. rewrite !str_app_cons in *.
  rewrite replace_nomatch by done. f_equal.
  rewrite replace_nomatch
    by (apply token_needs_second_brace; [done | by apply no_brace_head]).
  f_equal. apply (replace_brace_free old new (String c u) r Hold).
  by apply brace_free_cons.
Qed.

(** The scans do not begin with a brace unless the text does. *)
Lemma replace_head old new r :
  token_shaped old = true → Str.startswith "{" r = false →
  Str.startswith "{" (Str.replace_from old new 0 r) = false.
Proof.
  intros Hold Hr. destruct r as [|c r]; [done |].
  rewrite replace_nomatch by by apply token_needs_brace. done.
Qed.

Lemma substitute_head table r :
  shaped table → Str.startswith "{" r = false →
  Str.startswith "{" (substitute_from table 0 r) = false.
Proof.
  intros Hsh Hr. destruct r as [|c r]; [done |].
  rewrite substitute_nomatch by by apply find_token_no_brace. done.
Qed.

Lemma substitute_nil s : substitute_from [] 0 s = s.
Proof. induction s as [|c s IH]; [done |]. rewrite substitute_nomatch by done. by f_equal. Qed.

(** *** Well-bracketed texts *)

Lemma braces_ok_cons keys c s :
  braces_ok keys (String c s) =
  (if Str.startswith "{{" (String c s)
   then existsb (λ t, Str.startswith t (String c s)) keys else true)
  && braces_ok keys s.
Proof. done. Qed.

Lemma braces_ok_app_r keys s r : braces_ok keys (s +:+ r) = true → braces_ok keys r = true.
Proof.
  induction s as [|c s IH]; [done |]. rewrite str_app_cons, braces_ok_cons.
  intros [_ Htail]%andb_true_iff. by apply IH.
Qed.

Lemma braces_ok_brace_free keys w r :
  brace_free w → braces_ok keys r = true → braces_ok keys (w +:+ r) = true.
Proof.
  intros Hw Hr. induction w as [|c w IH]; [done |].
  apply brace_free_cons in Hw as [Hc Hw]. rewrite str_app_cons, braces_ok_cons.
  rewrite IH by done. simpl. by rewrite decide_False by congruence.
Qed.

Lemma braces_ok_token keys t r :
  token_shaped t = true → t ∈ keys → braces_ok keys r = true →
  braces_ok keys (t +:+ r) = true.
Proof.
  intros Hsh Hin Hr. pose proof (startswith_app t r) as Ht.
  destruct (token_shaped_inv t Hsh) as (c & u & -> & Hc & Hu).
  rewrite !str_app_cons in *. rewrite 2!braces_ok_cons.
  assert (braces_ok keys (String c (u +:+ r)) = true) as ->.
  { rewrite <- str_app_cons. apply braces_ok_brace_free; [by apply brace_free_cons | done]. }
  assert (existsb (λ t, Str.startswith t (String "{" (String "{" (String c (u +:+ r))))) keys
          = true) as ->.
  { apply existsb_exists. eexists. split; [by apply list_elem_of_In | exact Ht]. }
  simpl. by rewrite decide_False by congruence.
Qed.

Lemma braces_ok_ext keys keys' s :
  (∀ t, t ∈ keys ↔ t ∈ keys') → braces_ok keys s = braces_ok keys' s.
Proof.
  intros Hext. induction s as [|c s IH]; [done |]. rewrite !braces_ok_cons, IH.
  f_equal. case_match; [|done]. apply eq_true_iff_eq.
  rewrite !existsb_exists. setoid_rewrite <- list_elem_of_In.
  split; intros (t & Ht & Hs); exists t; (split; [by apply Hext | done]).
Qed.

(** *** Tables without overlapping keys *)

Lemma prefix_free_app keys t t' r :
  prefix_free keys → t ∈ keys → t' ∈ keys →
  Str.startswith t' (t +:+ r) = true → t' = t.
Proof.
  intros Hpf Ht Ht' [Hs | Hs]%startswith_app_inv; [by apply Hpf |].
  symmetry. by apply Hpf.
Qed.

Lemma table_ok_tail item table : table_ok (item :: table) → table_ok table.
Proof.
  intros (Hall & Hpf & Hnd). split_and!.
  - by apply Forall_cons in Hall as [_ ?].
  - intros t t' Ht Ht'. apply Hpf; rewrite fmap_cons; apply elem_of_cons; by right.
  - rewrite fmap_cons in Hnd. by apply NoDup_cons in Hnd as [_ ?].
Qed.

Lemma table_ok_shaped table : table_ok table → shaped table.
Proof. intros (Hall & _). eapply Forall_impl; [exact Hall | by intros ? [? _]]. Qed.

Lemma find_token_key table t v r :
  table_ok table → (t, v) ∈ table → find_token table (t +:+ r) = Some (t, v).
Proof.
  induction table as [|[t1 v1] table IH]; intros Hok Hin.
  - by apply elem_of_nil in Hin.
  - pose proof Hok as (_ & Hpf & Hnd). unfold find_token. cbn [List.find fst].
    destruct (Str.startswith t1 (t +:+ r)) eqn:Hs.
    + assert (t1 = t) as ->.
      { apply (prefix_free_app _ _ _ r Hpf); [| |done].
        - by apply (list_elem_of_fmap_2 fst _ (t, v)).
        - rewrite fmap_cons. apply elem_of_cons. by left. }
      apply elem_of_cons in Hin as [Heq | Hin]; [congruence |].
      rewrite fmap_cons in Hnd. apply NoDup_cons in Hnd as [Hnotin _].
      exfalso. apply Hnotin. by apply (list_elem_of_fmap_2 fst _ (t, v)).
    + apply elem_of_cons in Hin as [Heq | Hin].
      * injection Heq as <- <-. by rewrite startswith_app in Hs.
      * apply IH; [by eapply table_ok_tail | done].
Qed.

Lemma substitute_token table t v r :
  table_ok table → (t, v) ∈ table →
  substitute_from table 0 (t +:+ r) = v +:+ substitute_from table 0 r.
Proof.
  intros Hok Hin. rewrite (substitute_match table _ t v), str_drop_app; [done | |].
  - apply token_shaped_nonempty. destruct Hok as (Hall & _).
    rewrite Forall_forall in Hall. by apply (Hall (t, v)).
  - by apply find_token_key.
Qed.

(** *** Induction along a scan *)

Lemma str_drop_length n s : String.length (Str.drop n s) = String.length s - n.
Proof. revert n. induction s as [|c s IH]; intros [|n]; simpl; auto. Qed.

(** A text is empty, or starts with one of the keys, or starts with a
    character at which no key begins. *)
Lemma scan_ind keys (P : string → Prop) :
  Forall (λ t, t ≠ "") keys →
  P "" →
  (∀ t r, t ∈ keys → P r → P (t +:+ r)) →
  (∀ c r, Forall (λ t, Str.startswith t (String c r) = false) keys → P r → P (String c r)) →
  ∀ s, P s.
Proof.
  intros Hne Hnil Htok Hchr s.
  remember (String.length s) as n eqn:Hn. revert s Hn.
  induction (lt_wf n) as [n _ IH]. intros [|c s] ->; [done |].
  destruct (existsb (λ t, Str.startswith t (String c s)) keys) eqn:Hex.
  - apply existsb_exists in Hex as (t & Hin%list_elem_of_In & Hs).
    rewrite (startswith_split _ _ Hs). apply Htok; [done |].
    eapply IH; [|done]. rewrite str_drop_length.
    rewrite Forall_forall in Hne. specialize (Hne t Hin).
    destruct t; [done |]. simpl. lia.
  - apply Hchr; [|eapply IH; [|done]; simpl; lia].
    apply Forall_forall. intros t Hin.
    destruct (Str.startswith t (String c s)) eqn:Hs; [|done].
    rewrite <- Hex. symmetry. apply existsb_exists. exists t.
    split; [by apply list_elem_of_In | done].
Qed.

Lemma table_ok_keys_nonempty table : table_ok table → Forall (λ t, t ≠ "") table.*1.
Proof.
  intros (Hall & _). apply Forall_fmap. eapply Forall_impl; [exact Hall |].
  intros item [Hsh _]. by apply token_shaped_nonempty.
Qed.

Lemma table_ok_key_shaped table t : table_ok table → t ∈ table.*1 → token_shaped t = true.
Proof.
  intros (Hall & _) (item & -> & Hin)%list_elem_of_fmap.
  rewrite Forall_forall in Hall. by apply Hall.
Qed.

(** When no key starts at an opening brace of a well-bracketed text, the
    next character is not an opening brace. *)
Lemma lone_brace keys c r :
  braces_ok keys (String c r) = true →
  Forall (λ t, Str.startswith t (String c r) = false) keys →
  c ≠ "{"%char ∨ Str.startswith "{" r = false.
Proof.
  rewrite braces_ok_cons. intros [Hhead _]%andb_true_iff Hnone.
  destruct (decide (c = "{"%char)) as [-> |]; [right | by left].
  destruct (Str.startswith "{" r) eqn:Hr; [|done].
  assert (Str.startswith "{{" (String "{" r) = true) as Hs.
  { by rewrite startswith_cons, decide_True. }
  rewrite Hs in Hhead. apply existsb_exists in Hhead as (t & Hin%list_elem_of_In & Ht).
  rewrite Forall_forall in Hnone. rewrite Hnone in Ht; done.
Qed.

(** One replacement of the chain: replacing the first placeholder of the
    table and then substituting the others in one pass is substituting
    all of them in one pass, and the text stays well-bracketed for the
    others. *)
Lemma chain_step t0 v0 table s :
  table_ok ((t0, v0) :: table) →
  braces_ok ((t0, v0) :: table).*1 s = true →
  substitute_from ((t0, v0) :: table) 0 s
  = substitute_from table 0 (Str.replace_from t0 v0 0 s)
  ∧ braces_ok table.*1 (Str.replace_from t0 v0 0 s) = true.
Proof.
  intros Hok. pose proof (table_ok_tail _ _ Hok) as Hok'.
  pose proof (table_ok_shaped _ Hok') as Hsh'.
  assert (token_shaped t0 = true ∧ brace_free v0) as [Hsh0 Hv0].
  { destruct Hok as (Hall & _). by apply Forall_cons in Hall as [? _]. }
  assert ((t0, v0) ∈ (t0, v0) :: table) as Hin0 by (apply elem_of_cons; by left).
  pattern s. revert s.
  apply (scan_ind ((t0, v0) :: table).*1); [by apply table_ok_keys_nonempty | ..].
  - done.
  - intros t r Hin IH Hbr. destruct (IH (braces_ok_app_r _ _ _ Hbr)) as [IHs IHb].
    rewrite fmap_cons in Hin. apply elem_of_cons in Hin as [-> | Hin].
    + rewrite (substitute_token _ _ v0), replace_token, substitute_brace_free, IHs
        by (done || by apply token_shaped_nonempty).
      split; [done |]. by apply braces_ok_brace_free.
    + pose proof Hin as (item & Ht & Hin')%list_elem_of_fmap. destruct item as [t' v].
      simpl in Ht. subst t'.
      assert (token_shaped t = true) as Hsh by by eapply table_ok_key_shaped.
      assert (Str.startswith t0 (t +:+ r) = false) as Hno.
      { destruct (Str.startswith t0 (t +:+ r)) eqn:Hs; [|done].
        destruct Hok as (_ & Hpf & Hnd). exfalso.
        assert (t0 = t) as ->.
        { apply (prefix_free_app _ _ _ r Hpf); rewrite ?fmap_cons; [| |done];
            apply elem_of_cons; [by right | by left]. }
        rewrite fmap_cons in Hnd. by apply NoDup_cons in Hnd as [? _]. }
      rewrite (substitute_token _ _ v) by (done || apply elem_of_cons; by right).
      rewrite replace_other_token by done.
      rewrite (substitute_token _ _ v), IHs by done.
      split; [done |]. by apply braces_ok_token.
  - intros c r Hnone IH Hbr.
    assert (braces_ok ((t0, v0) :: table).*1 r = true) as Hbr'.
    { rewrite braces_ok_cons in Hbr. by apply andb_true_iff in Hbr as [_ ?]. }
    destruct (IH Hbr') as [IHs IHb].
    pose proof Hnone as Hnone'. apply Forall_fmap in Hnone'.
    rewrite substitute_nomatch by by apply find_token_none.
    rewrite replace_nomatch by by apply Forall_cons in Hnone as [? _].
    assert (Str.startswith "{{" (String c (Str.replace_from t0 v0 0 r)) = false
            ∧ find_token table (String c (Str.replace_from t0 v0 0 r)) = None)
      as [Hhead Hfind].
    { destruct (lone_brace _ _ _ Hbr Hnone) as [Hc | Hr].
      - split; [by rewrite startswith_cons, decide_False by congruence |].
        apply find_token_no_brace; [done | by apply head_brace].
      - pose proof (replace_head t0 v0 r Hsh0 Hr) as Hr'. split.
        + rewrite startswith_cons. by case_decide.
        + destruct (decide (c = "{"%char)) as [-> | Hc].
          * by apply find_token_single_brace.
          * apply find_token_no_brace; [done | by apply head_brace]. }
    rewrite substitute_nomatch by done. rewrite braces_ok_cons, Hhead, IHb, IHs. done.
Qed.

(** Chained replacement is substitution in one pass, for a table that is
    [table_ok] and a text that is well-bracketed for its keys. *)
Lemma replace_each_single_pass table s :
  table_ok table → braces_ok table.*1 s = true →
  replace_each table s = substitute_single_pass table s.
Proof.
  unfold replace_each, substitute_single_pass. revert s.
  induction table as [|[t0 v0] table IH]; intros s Hok Hbr.
  - by rewrite substitute_nil.
  - destruct (chain_step t0 v0 table s Hok Hbr) as [Hs Hb]. cbn [fold_left fst snd].
    rewrite replace_nonempty.
    + rewrite IH; [done | by eapply table_ok_tail | done].
    + apply token_shaped_nonempty. destruct Hok as (Hall & _).
      by apply Forall_cons in Hall as [[? _] _].
Qed.

(** *** The order of the table does not matter *)

Lemma table_ok_perm table table' : table ≡ₚ table' → table_ok table → table_ok table'.
Proof.
  intros Hp (Hall & Hpf & Hnd). split_and!.
  - by rewrite <- Hp.
  - intros t t'. rewrite <- Hp. apply Hpf.
  - by rewrite <- Hp.
Qed.

Lemma find_token_unique table item s :
  table_ok table → item ∈ table → Str.startswith item.1 s = true →
  find_token table s = Some item.
Proof.
  intros Hok Hin Hs. destruct item as [t v]. rewrite (startswith_split _ _ Hs).
  by apply find_token_key.
Qed.

Lemma find_token_perm table table' s :
  table_ok table → table ≡ₚ table' → find_token table s = find_token table' s.
Proof.
  intros Hok Hp. destruct (find_token table s) as [item|] eqn:Hfind.
  - apply find_some in Hfind as [Hin%list_elem_of_In Hs]. symmetry.
    apply find_token_unique; [by eapply table_ok_perm | by rewrite <- Hp | done].
  - symmetry. apply find_token_none. rewrite <- Hp. by apply find_token_none.
Qed.

Lemma substitute_from_ext table table' k s :
  (∀ r, find_token table r = find_token table' r) →
  substitute_from table k s = substitute_from table' k s.
Proof.
  intros Hext. revert k. induction s as [|c s IH]; intros k; [done |].
  cbn [substitute_from]. destruct k; [|apply IH].
  rewrite Hext. destruct (find_token table' (String c s)) as [[t v]|]; by rewrite IH.
Qed.

Lemma replace_each_perm table order s :
  table_ok table → braces_ok table.*1 s = true → order ≡ₚ table →
  replace_each order s = replace_each table s.
Proof.
  intros Hok Hbr Hp.
  assert (table_ok order) as Hok' by (eapply table_ok_perm; [symmetry; exact Hp | done]).
  assert (braces_ok order.*1 s = true) as Hbr'.
  { rewrite <- Hbr. apply braces_ok_ext. intros t. by rewrite Hp. }
  rewrite !replace_each_single_pass by done.
  apply substitute_from_ext. intros r. symmetry. by apply find_token_perm.
Qed.

(** *** No two opening braces in a row are left *)

Lemma contains_cons t c s :
  Str.contains t (String c s) = Str.startswith t (String c s) || Str.contains t s.
Proof. done. Qed.

Lemma contains_brace_free v r :
  brace_free v → Str.contains "{{" (v +:+ r) = Str.contains "{{" r.
Proof.
  induction v as [|c v IH]; [done |]. intros [Hc Hv]%brace_free_cons.
  rewrite str_app_cons, contains_cons, startswith_cons, decide_False by congruence.
  by apply IH.
Qed.

Lemma substitute_no_double_brace table s :
  table_ok table → braces_ok table.*1 s = true →
  Str.contains "{{" (substitute_from table 0 s) = false.
Proof.
  intros Hok. pose proof (table_ok_shaped _ Hok) as Hsh. pattern s. revert s.
  apply (scan_ind table.*1); [by apply table_ok_keys_nonempty | ..].
  - done.
  - intros t r (item & -> & Hin)%list_elem_of_fmap IH Hbr. destruct item as [t v].
    assert (brace_free v) as Hv.
    { destruct Hok as (Hall & _). rewrite Forall_forall in Hall. by apply (Hall (t, v)). }
    rewrite (substitute_token _ _ v), contains_brace_free by done.
    by eapply IH, braces_ok_app_r.
  - intros c r Hnone IH Hbr. pose proof Hnone as Hnone'. apply Forall_fmap in Hnone'.
    rewrite substitute_nomatch by by apply find_token_none.
    rewrite contains_cons, IH.
    + rewrite orb_false_r, startswith_cons.
      destruct (lone_brace _ _ _ Hbr Hnone) as [Hc | Hr]; [by rewrite decide_False |].
      case_decide; [|done]. by apply substitute_head.
    + rewrite braces_ok_cons in Hbr. by apply andb_true_iff in Hbr as [_ ?].
Qed.

Lemma token_syntax_needs_braces s : Str.contains "{{" s = false → token_syntax s = false.
Proof.
  induction s as [|c s IH]; [done |].
  rewrite contains_cons. intros [Hhead Htail]%orb_false_iff.
  cbn [token_syntax]. by rewrite Hhead, IH.
Qed.

(** *** A value takes the place of its placeholder *)

Lemma brace_free_straddle w a x :
  brace_free w → Str.startswith w (a +:+ String "{" x) = true → Str.startswith w a = true.
Proof.
  revert a. induction w as [|c w IH]; intros a; [done |].
  intros [Hc Hw]%brace_free_cons. destruct a as [|d a].
  - rewrite str_app_nil_l, startswith_cons. by rewrite decide_False.
  - rewrite str_app_cons, !startswith_cons. case_decide; [by apply IH | done].
Qed.

(** A placeholder that starts in [a] does not reach into a placeholder
    behind [a]. *)
Lemma token_straddle t' t a b :
  token_shaped t' = true → token_shaped t = true →
  Str.startswith t' (a +:+ t +:+ b) = true → a = "" ∨ Str.startswith t' a = true.
Proof.
  intros (c' & u' & -> & Hc' & Hu')%token_shaped_inv (c & u & -> & _)%token_shaped_inv.
  destruct a as [|a1 [|a2 a]]; [by left | intros Hs; exfalso | intros Hs; right].
  - repeat (rewrite str_app_cons in Hs || rewrite str_app_nil_l in Hs).
    rewrite !startswith_cons in Hs. repeat case_decide; congruence.
  - rewrite !str_app_cons in Hs. rewrite !startswith_cons in *.
    repeat case_decide; try done.
    eapply (brace_free_straddle (String c' u')); [by apply brace_free_cons | exact Hs].
Qed.

Lemma substitute_decompose table t v a b :
  table_ok table → (t, v) ∈ table →
  substitute_from table 0 (a +:+ t +:+ b)
  = substitute_from table 0 a +:+ v +:+ substitute_from table 0 b.
Proof.
  intros Hok Hin. pattern a. revert a.
  apply (scan_ind table.*1); [by apply table_ok_keys_nonempty | ..].
  - rewrite str_app_nil_l. by apply substitute_token.
  - intros t1 r (item & -> & Hin1)%list_elem_of_fmap IH. destruct item as [t1 v1].
    rewrite str_app_assoc, (substitute_token _ t1 v1 (r +:+ t +:+ b)),
      (substitute_token _ t1 v1 r), IH by done.
    by rewrite str_app_assoc.
  - intros c r Hnone IH. apply Forall_fmap in Hnone.
    rewrite str_app_cons, !substitute_nomatch, IH; [done | by apply find_token_none |].
    apply find_token_none. rewrite Forall_forall in Hnone |- *. intros item Hitem.
    destruct (Str.startswith item.1 (String c (r +:+ t +:+ b))) eqn:Hs; [|done].
    rewrite <- str_app_cons in Hs. apply token_straddle in Hs as [? | Hs]; [done | |..].
    + by rewrite <- (Hnone item Hitem).
    + eapply table_ok_key_shaped; [done | by apply list_elem_of_fmap_2].
    + eapply table_ok_key_shaped; [done | by apply (list_elem_of_fmap_2 fst _ (t, v))].
Qed.

Lemma braces_ok_app_l keys a t b :
  Forall (λ k, token_shaped k = true) keys → token_shaped t = true →
  braces_ok keys (a +:+ t +:+ b) = true → braces_ok keys a = true.
Proof.
  intros Hkeys Ht. induction a as [|c a IH]; [done |].
  rewrite str_app_cons, !braces_ok_cons. intros [Hhead Htail]%andb_true_iff.
  rewrite IH by done. rewrite andb_true_r.
  destruct (Str.startswith "{{" (String c a)) eqn:Hs; [|done].
  rewrite <- str_app_cons, (startswith_weaken _ _ _ Hs) in Hhead.
  apply existsb_exists in Hhead as (k & Hk & Hm). apply existsb_exists. exists k.
  split; [done |]. apply token_straddle in Hm as [? | ?]; [done | done | | done].
  rewrite Forall_forall in Hkeys. by apply Hkeys, list_elem_of_In.
Qed.

End Tokens.

(** ** The table of [replace_variables] *)

Section Replacements.

Implicit Types now : datetime.
Implicit Types config : ProjectConfig.

Lemma replacements_keys now config : (replacements now config).*1 = PLACEHOLDERS.
Proof. done. Qed.

Lemma placeholders_prefix_free : prefix_free PLACEHOLDERS.
Proof.
  assert (forallb (λ t, forallb (λ t', implb (Str.startswith t t') (bool_decide (t = t')))
                               PLACEHOLDERS) PLACEHOLDERS = true) as Hall
    by (vm_compute; done).
  rewrite forallb_forall in Hall. intros t t' Ht%list_elem_of_In Ht'%list_elem_of_In Hs.
  specialize (Hall t Ht). rewrite forallb_forall in Hall. specialize (Hall t' Ht').
  rewrite Hs in Hall. by apply bool_decide_eq_true in Hall.
Qed.

Lemma placeholders_NoDup : NoDup PLACEHOLDERS.
Proof. apply (bool_decide_unpack _). vm_compute. done. Qed.

Lemma digits_brace_free (d : Decimal.uint) : brace_free (NilEmpty.string_of_uint d).
Proof. induction d; [done | by apply brace_free_cons ..]. Qed.

Lemma of_nat_brace_free n : brace_free (Str.of_nat n).
Proof. apply digits_brace_free. Qed.

Lemma zfill_brace_free w s : brace_free s → brace_free (Str.zfill w s).
Proof.
  intros Hs. unfold Str.zfill. induction (w - String.length s) as [|k IH]; [done |].
  by apply brace_free_cons.
Qed.

Lemma strftime_brace_free now : brace_free (strftime_ymd now).
Proof.
  unfold strftime_ymd. repeat (apply brace_free_app; split);
    try (apply zfill_brace_free, of_nat_brace_free); done.
Qed.

Lemma replacements_ok now config :
  Forall brace_free (config_values config) → table_ok (replacements now config).
Proof.
  intros Hvalues. split_and!.
  - unfold config_values in Hvalues. rewrite !Forall_cons in Hvalues.
    destruct_and!. unfold replacements.
    repeat (apply Forall_cons; split; [by split |]).
    repeat (apply Forall_cons; split;
            [split; [done | apply strftime_brace_free || apply of_nat_brace_free] |]).
    constructor.
  - rewrite replacements_keys. apply placeholders_prefix_free.
  - rewrite replacements_keys. apply placeholders_NoDup.
Qed.

End Replacements.

(** ** Properties of [replace_variables] *)

(** C5. [replace_variables] is the identity on a text that none of the
    placeholders occurs in: for every configuration, every date and
    every such text [x], the result is [x]. *)
Theorem replace_variables_no_token now x config :
  Forall (λ t, Str.contains t x = false) PLACEHOLDERS →
  replace_variables now x config = x.
Proof.
  intros Hno. apply replace_each_absent.
  unfold PLACEHOLDERS in Hno. rewrite !Forall_cons in Hno. destruct_and!.
  unfold replacements. repeat (apply Forall_cons; split; [by split |]). constructor.
Qed.

Lemma replace_variables_no_token_witness :
  Forall (λ t, Str.contains t "Hello, {world}" = false) PLACEHOLDERS
  ∧ replace_variables demo_date "Hello, {world}" demo_config = "Hello, {world}".
Proof.
  assert (Forall (λ t, Str.contains t "Hello, {world}" = false) PLACEHOLDERS) as Hno
    by (repeat constructor).
  split; [exact Hno | exact (replace_variables_no_token _ _ _ Hno)].
Defined.

(** C3, as the code has it.  The replacements are chained: each one
    searches the result of those before it.  When every pair of opening
    braces of the text starts a placeholder and no value of the
    configuration contains an opening brace, the result is the
    substitution in one pass over the original text, and every order of
    the replacements gives the same result. *)
Theorem replace_variables_single_pass now content config :
  braces_ok PLACEHOLDERS content = true →
  Forall brace_free (config_values config) →
  replace_variables now content config
  = substitute_single_pass (replacements now config) content
  ∧ ∀ order, order ≡ₚ replacements now config →
      replace_each order content = replace_variables now content config.
Proof.
  intros Hbr Hvalues. pose proof (replacements_ok now config Hvalues) as Hok.
  split.
  - by apply replace_each_single_pass.
  - intros order Hp. by apply replace_each_perm.
Qed.

Lemma replace_variables_single_pass_witness :
  braces_ok PLACEHOLDERS full_template = true
  ∧ Forall brace_free (config_values demo_config)
  ∧ replace_variables demo_date full_template demo_config
    = substitute_single_pass (replacements demo_date demo_config) full_template.
Proof.
  assert (braces_ok PLACEHOLDERS full_template = true) as Hbr by reflexivity.
  assert (Forall brace_free (config_values demo_config)) as Hvalues
    by (repeat constructor).
  split_and!; [exact Hbr | exact Hvalues |].
  exact (proj1 (replace_variables_single_pass demo_date _ _ Hbr Hvalues)).
Defined.

(** C3 as stated fails: a value that is a placeholder is replaced by a
    later replacement, so the chain differs from the single pass, and
    the reverse order of the replacements gives another result. *)
Lemma replace_variables_chained_counterexample :
  replace_variables demo_date "{{PROJECT_NAME}}" nested_config
  ≠ substitute_single_pass (replacements demo_date nested_config) "{{PROJECT_NAME}}"
  ∧ replace_each (reverse (replacements demo_date nested_config)) "{{PROJECT_NAME}}"
    ≠ replace_variables demo_date "{{PROJECT_NAME}}" nested_config.
Proof. split; vm_compute; discriminate. Qed.

(** C4, as the code has it.  When every pair of opening braces of the
    template starts a placeholder (as in a template that has each
    placeholder once and no other braces) and no value of the
    configuration contains an opening brace, the output has no two
    opening braces in a row, hence nothing of the syntax of a
    placeholder, and each occurrence of a placeholder is replaced in
    place: the text before and the text behind it are substituted on
    their own and the value stands between them. *)
Theorem replace_variables_in_place now content config :
  braces_ok PLACEHOLDERS content = true →
  Forall brace_free (config_values config) →
  Str.contains "{{" (replace_variables now content config) = false
  ∧ token_syntax (replace_variables now content config) = false
  ∧ ∀ a t v b,
      (t, v) ∈ replacements now config → content = a +:+ t +:+ b →
      replace_variables now content config
      = replace_variables now a config +:+ v +:+ replace_variables now b config.
Proof.
  intros Hbr Hvalues. pose proof (replacements_ok now config Hvalues) as Hok.
  assert (Str.contains "{{" (replace_variables now content config) = false) as Hno.
  { unfold replace_variables. rewrite replace_each_single_pass by done.
    by apply substitute_no_double_brace. }
  split_and!; [done | by apply token_syntax_needs_braces |].
  intros a t v b Hin ->.
  assert (token_shaped t = true) as Ht
    by (eapply table_ok_key_shaped; [done | by apply (list_elem_of_fmap_2 fst _ (t, v))]).
  assert (braces_ok PLACEHOLDERS a = true) as Ha.
  { eapply braces_ok_app_l; [|exact Ht | exact Hbr]. repeat constructor. }
  assert (braces_ok PLACEHOLDERS b = true) as Hb.
  { eapply braces_ok_app_r, braces_ok_app_r. exact Hbr. }
  unfold replace_variables. rewrite !replace_each_single_pass by done.
  by apply substitute_decompose.
Qed.

Lemma replace_variables_in_place_witness :
  braces_ok PLACEHOLDERS full_template = true
  ∧ Forall brace_free (config_values demo_config)
  ∧ Forall (λ t, Str.count t full_template = 1) PLACEHOLDERS
  ∧ token_syntax (replace_variables demo_date full_template demo_config) = false.
Proof.
  assert (braces_ok PLACEHOLDERS full_template = true) as Hbr by reflexivity.
  assert (Forall brace_free (config_values demo_config)) as Hvalues
    by (repeat constructor).
  split_and!; [exact Hbr | exact Hvalues | repeat constructor |].
  exact (proj1 (proj2 (replace_variables_in_place demo_date _ _ Hbr Hvalues))).
Defined.

(** C4 as stated fails twice over.  A template with every placeholder
    exactly once and one more token keeps that token; and a template
    with nothing but the placeholders, each once, takes over the token
    that a value of the configuration holds.  Either output shows the
    syntax of a placeholder. *)
Lemma replace_variables_token_left_counterexample :
  (Forall (λ t, Str.count t template_with_unknown = 1) PLACEHOLDERS
   ∧ token_syntax (replace_variables demo_date template_with_unknown demo_config) = true)
  ∧ (Forall (λ t, Str.count t full_template = 1) PLACEHOLDERS
     ∧ token_syntax (replace_variables demo_date full_template braced_config) = true).
Proof. split; (split; [repeat constructor | reflexivity]). Qed.

(** ** The registry *)

(** C10. For every key of [FRAMEWORKS] the lookup returns a
    configuration whose [name] is that key; for every other key it finds
    nothing, and [get_project_config] then reports the unknown framework
    and exits with status 1. *)
Theorem lookup_registered key :
  (key ∈ FRAMEWORKS.*1 → ∃ config, lookup key = Some config ∧ name config = key)
  ∧ (key ∉ FRAMEWORKS.*1 →
       lookup key = None
       ∧ ∀ project_name w,
           key ≠ "" →
           get_project_config (Some key) project_name w
           = Raise (SystemExit 1) (printed Failure ("Unknown framework: " +:+ key) w)).
Proof.
  split.
  - intros Hin. unfold FRAMEWORKS in Hin. simpl in Hin.
    rewrite !elem_of_cons, elem_of_nil in Hin.
    destruct Hin as [-> | [-> | [-> | []]]]; by eexists.
  - intros Hout. assert (lookup key = None) as Hnone.
    { unfold lookup, FRAMEWORKS. cbn [dict_get]. unfold FRAMEWORKS in Hout. simpl in Hout.
      rewrite !not_elem_of_cons in Hout. destruct Hout as (? & ? & ? & _).
      by rewrite !decide_False by done. }
    split; [done |]. intros pn w Hkey. destruct key as [|c key]; [done |].
    unfold get_project_config. cbn [truthy or_empty]. by rewrite Hnone.
Qed.

Lemma lookup_registered_witness :
  ("typescript-nodejs" ∈ FRAMEWORKS.*1
   ∧ ∃ config, lookup "typescript-nodejs" = Some config ∧ name config = "typescript-nodejs")
  ∧ (("rust-axum" ∉ FRAMEWORKS.*1) ∧ lookup "rust-axum" = None).
Proof.
  assert ("typescript-nodejs" ∈ FRAMEWORKS.*1) as Hin
    by (apply (bool_decide_unpack _); vm_compute; exact I).
  assert ("rust-axum" ∉ FRAMEWORKS.*1) as Hout
    by (apply (bool_decide_unpack _); vm_compute; exact I).
  split.
  - split; [exact Hin | exact (proj1 (lookup_registered _) Hin)].
  - split; [exact Hout | exact (proj1 (proj2 (lookup_registered _) Hout))].
Defined.

(** ** The console *)

Section Console.

Lemma same_files_refl w : same_files w w.
Proof. done. Qed.

Lemma same_files_trans w1 w2 w3 : same_files w1 w2 → same_files w2 w3 → same_files w1 w3.
Proof. unfold same_files. intros (-> & -> & ->) (-> & -> & ->). done. Qed.

Lemma console_only_ret {A} (a : A) : console_only (mret a).
Proof. intros w. apply same_files_refl. Qed.

Lemma console_only_raise {A} e : console_only (raise e : M A).
Proof. intros w. apply same_files_refl. Qed.

Lemma console_only_bind {A B} (m : M A) (f : A → M B) :
  console_only m → (∀ a, console_only (f a)) → console_only (m ≫= f).
Proof.
  intros Hm Hf w. unfold mbind, M_bind. specialize (Hm w).
  destruct (m w) as [a w1 | e w1]; [|done].
  specialize (Hf a w1). destruct (f a w1); by eapply same_files_trans.
Qed.

Lemma console_only_print st text : console_only (print st text).
Proof. by intros w. Qed.

Lemma console_only_input prompt : console_only (input prompt).
Proof. intros w. unfold input. by destruct (stdin w) as [|[]]. Qed.

Lemma console_only_get_user_input prompt default :
  console_only (get_user_input prompt default).
Proof.
  apply console_only_bind; [apply console_only_input | intros; apply console_only_ret].
Qed.

Lemma console_only_list_frameworks_loop i items : console_only (list_frameworks_loop i items).
Proof.
  revert i. induction items as [|[key config] items IH]; intros i;
    [apply console_only_ret |].
  cbn [list_frameworks_loop].
  repeat (apply console_only_bind; [apply console_only_print | intros _]). apply IH.
Qed.

Lemma console_only_list_frameworks : console_only list_frameworks.
Proof.
  apply console_only_bind; [apply console_only_print | intros _].
  apply console_only_list_frameworks_loop.
Qed.

Lemma console_only_select_framework_loop pending :
  console_only (select_framework_loop pending).
Proof.
  induction pending as [|i pending IH]; cbn [select_framework_loop].
  - apply console_only_bind; [apply console_only_get_user_input | intros _].
    apply console_only_raise.
  - apply console_only_bind; [apply console_only_get_user_input | intros choice].
    destruct (int choice) as [n|].
    + case_bool_decide.
      * destruct (_ !! _).
        -- apply console_only_bind; [apply console_only_print | intros _].
           apply console_only_ret.
        -- apply console_only_raise.
      * apply console_only_bind; [apply console_only_print | intros _]. apply IH.
    + apply console_only_bind; [apply console_only_print | intros _]. apply IH.
Qed.

Lemma console_only_select_framework : console_only select_framework.
Proof.
  intros w. unfold select_framework.
  apply (console_only_bind list_frameworks (λ _, select_framework_loop (stdin w)));
    [apply console_only_list_frameworks | intros _; apply console_only_select_framework_loop].
Qed.

Lemma console_only_get_project_config framework project_name :
  console_only (get_project_config framework project_name).
Proof.
  unfold get_project_config. apply console_only_bind.
  - destruct (truthy framework); [|apply console_only_select_framework].
    destruct (lookup _); [apply console_only_ret |].
    apply console_only_bind; [apply console_only_print | intros _].
    apply console_only_raise.
  - intros config. apply console_only_bind.
    + destruct (truthy project_name);
        [apply console_only_ret | apply console_only_get_user_input].
    + intros ?. repeat (apply console_only_bind; [apply console_only_get_user_input | intros ?]).
      apply console_only_ret.
Qed.

(** An entered line that is empty once stripped gives the default. *)
Lemma get_user_input_line prompt default entered w :
  head (stdin w) = Some (Line entered) →
  get_user_input prompt default w
  = Ok (answer entered default) (after_input (full_prompt prompt default) w).
Proof.
  intros Hin. unfold get_user_input, input, mbind, M_bind, answer.
  destruct (stdin w) as [|[text|] rest]; [done | | done].
  injection Hin as ->. by destruct (Str.strip entered).
Qed.

End Console.

(** ** Resolving the configuration *)

Lemma get_user_input_default prompt default entered rest w :
  stdin w = Line entered :: rest → Str.strip entered = "" →
  get_user_input prompt default w
  = Ok (or_empty default) (after_input (full_prompt prompt default) w)
  ∧ stdin (after_input (full_prompt prompt default) w) = rest
  ∧ same_files w (after_input (full_prompt prompt default) w).
Proof.
  intros Hin Hstrip. split_and!.
  - rewrite (get_user_input_line _ _ entered) by by rewrite Hin.
    unfold answer. by rewrite Hstrip.
  - simpl. by rewrite Hin.
  - done.
Qed.

(** C6. With the framework key [python-fastapi], no project name and a
    console that answers the five prompts with lines that are empty
    (or blank), [get_project_config] yields the project name
    [my-python-fastapi-project] and the coverage threshold [80] (and the
    other defaults).  In general [get_user_input] returns the default of
    the prompt for such a line, which is the empty string only where the
    default is. *)
Theorem get_project_config_defaults :
  (∀ prompt default entered rest w,
     stdin w = Line entered :: rest → Str.strip entered = "" →
     get_user_input prompt (Some default) w
     = Ok default (after_input (full_prompt prompt (Some default)) w))
  ∧ (∀ w e1 e2 e3 e4 e5 rest,
       stdin w = [Line e1; Line e2; Line e3; Line e4; Line e5] ++ rest →
       Forall (λ e, Str.strip e = "") [e1; e2; e3; e4; e5] →
       ∃ w',
         get_project_config (Some "python-fastapi") None w
         = Ok (mkConfig fastapi "my-python-fastapi-project" "Your Team"
                 "A Python + FastAPI project" "" "80") w'
         ∧ stdin w' = rest ∧ same_files w w').
Proof.
  split.
  - intros prompt default entered rest w Hin Hstrip.
    destruct (get_user_input_default prompt (Some default) _ _ _ Hin Hstrip) as [-> _].
    by destruct default.
  - intros w e1 e2 e3 e4 e5 rest Hin Hall.
    rewrite !Forall_cons in Hall. destruct Hall as (H1 & H2 & H3 & H4 & H5 & _).
    unfold get_project_config. cbn [truthy or_empty].
    change (lookup "python-fastapi") with (Some fastapi).
    unfold mbind, M_bind, mret, M_ret.
    edestruct (get_user_input_default "Project name") as (-> & Hin1 & Hs1); [exact Hin | exact H1 |].
    edestruct (get_user_input_default "Author name") as (-> & Hin2 & Hs2); [exact Hin1 | exact H2 |].
    edestruct (get_user_input_default "Project description") as (-> & Hin3 & Hs3);
      [exact Hin2 | exact H3 |].
    edestruct (get_user_input_default "GitLab URL (optional)") as (-> & Hin4 & Hs4);
      [exact Hin3 | exact H4 |].
    edestruct (get_user_input_default "Coverage threshold") as (-> & Hin5 & Hs5);
      [exact Hin4 | exact H5 |].
    eexists. split_and!; [reflexivity | exact Hin5 |].
    repeat (eapply same_files_trans; [eassumption |]). apply same_files_refl.
Qed.

Lemma get_project_config_defaults_witness :
  ∃ w',
    get_project_config (Some "python-fastapi") None
      (mkWorld ∅ [Line ""; Line ""; Line " "; Line ""; Line ""] [] [] demo_date)
    = Ok (mkConfig fastapi "my-python-fastapi-project" "Your Team"
            "A Python + FastAPI project" "" "80") w'
    ∧ stdin w' = [].
Proof.
  destruct (proj2 get_project_config_defaults
              (mkWorld ∅ [Line ""; Line ""; Line " "; Line ""; Line ""] [] [] demo_date)
              "" "" " " "" "" [] eq_refl) as (w' & Hrun & Hin & _).
  - repeat constructor.
  - exists w'. split; [exact Hrun | exact Hin].
Defined.

(** ** Declining to overwrite *)

Lemma is_dir_exists m p : Path.is_dir m p = true → Path.exists_ m p = true.
Proof.
  unfold Path.is_dir, Path.exists_. intros Hdir. apply bool_decide_eq_true.
  by destruct (Path.lookup_node m p) as [[]|].
Qed.

Lemma exists_and_nonempty_true p w :
  Path.is_dir (fs w) p = true → Path.iterdir (fs w) p ≠ [] →
  exists_and_nonempty p w = Ok true w.
Proof.
  intros Hdir Hsome. unfold exists_and_nonempty, get_fs, mbind, M_bind.
  rewrite (is_dir_exists _ _ Hdir), Hdir. unfold mret, M_ret.
  by rewrite bool_decide_eq_true_2.
Qed.

Lemma generate_project_declined self output_dir framework project_name use w config w1
    entered rest :
  get_project_config framework project_name (printed Header "Project Template Generator" w)
  = Ok config w1 →
  Path.is_dir (fs w) output_dir = true →
  Path.iterdir (fs w) output_dir ≠ [] →
  stdin w1 = Line entered :: rest →
  Str.lower (answer entered (Some "n")) ≠ "y" →
  ∃ w', generate_project self output_dir framework project_name use w = Ok () w'
        ∧ same_files w w'
        ∧ last (stdout w') = Some (Warning, "Generation cancelled").
Proof.
  intros Hcfg Hdir Hsome Hin Hno.
  pose proof (console_only_get_project_config framework project_name
                (printed Header "Project Template Generator" w)) as Hsame.
  rewrite Hcfg in Hsame. destruct Hsame as (Hfs & Hwr & Hclk). simpl in Hfs, Hwr, Hclk.
  unfold generate_project, mbind, M_bind.
  change (print_header "Project Template Generator" w)
    with (Ok () (printed Header "Project Template Generator" w)).
  cbv beta iota. rewrite Hcfg. unfold print_info, print at 1 2.
  rewrite exists_and_nonempty_true by (simpl; by rewrite Hfs).
  rewrite (get_user_input_line _ _ entered) by (simpl; by rewrite Hin).
  rewrite decide_True by done. unfold print_warning, print.
  eexists. split_and!; [reflexivity | | ].
  - split_and!; simpl; congruence.
  - simpl. by rewrite last_snoc.
Qed.

(** C2, as the code has it.  When the output directory exists and is
    not empty and the line entered at the overwrite question is anything
    but [y] or [Y] (an empty line counts as [n]), [generate_project]
    returns after the message "Generation cancelled" without touching
    the file system, and [main] ends normally: the exit status of the
    process is 0. *)
Theorem declined_overwrite script_dir args w config w1 entered rest :
  arg_list args = false →
  get_project_config (arg_framework args) (arg_name args)
    (printed Header "Project Template Generator" w) = Ok config w1 →
  Path.is_dir (fs w) (arg_output args) = true →
  Path.iterdir (fs w) (arg_output args) ≠ [] →
  stdin w1 = Line entered :: rest →
  Str.lower (answer entered (Some "n")) ≠ "y" →
  ∃ w', main script_dir args w = (0, w')
        ∧ same_files w w'
        ∧ last (stdout w') = Some (Warning, "Generation cancelled").
Proof.
  intros Hlist Hcfg Hdir Hsome Hin Hno.
  destruct (generate_project_declined (mkGenerator script_dir) _ _ _
              (negb (arg_base_only args)) _ _ _ _ _ Hcfg Hdir Hsome Hin Hno)
    as (w' & Hrun & Hsame & Hlast).
  exists w'. unfold main. rewrite Hlist, Hrun. done.
Qed.

Lemma declined_overwrite_witness :
  ∃ w', main ["templates"] demo_args occupied_world = (0, w')
        ∧ same_files occupied_world w'.
Proof.
  edestruct (declined_overwrite ["templates"] demo_args occupied_world) as (w' & Hrun & Hsame & _).
  - reflexivity.
  - reflexivity.
  - reflexivity.
  - vm_compute. discriminate.
  - reflexivity.
  - vm_compute. discriminate.
  - exists w'. split; [exact Hrun | exact Hsame].
Defined.

(** C2 as stated fails: the output directory is not empty, the answer
    is [n], nothing is written, and the exit status is 0, not 1. *)
Lemma declined_overwrite_counterexample :
  Path.is_dir (fs occupied_world) (arg_output demo_args) = true
  ∧ Path.iterdir (fs occupied_world) (arg_output demo_args) ≠ []
  ∧ fs (main ["templates"] demo_args occupied_world).2 = fs occupied_world
  ∧ (main ["templates"] demo_args occupied_world).1 ≠ 1.
Proof. split_and!; vm_compute; done. Qed.

(** ** The file system *)

Section FileSystem.

Implicit Types m : gmap (list string) node.
Implicit Types p q : list string.
Implicit Types w : world.

Lemma find_none_iff {A} (f : A → bool) (l : list A) :
  List.find f l = None ↔ ∀ x, x ∈ l → f x = false.
Proof.
  induction l as [|a l IH]; simpl.
  - split; [by intros _ x ?%elem_of_nil | done].
  - destruct (f a) eqn:Ha.
    + split; [done |]. intros Hall. rewrite Hall in Ha; [done | by left].
    + rewrite IH. split.
      * intros Hall x [-> | ?]%elem_of_cons; auto.
      * intros Hall x Hx. apply Hall. by right.
Qed.

Lemma elem_of_ancestors_from base rest q :
  q ∈ Path.ancestors_from base rest ↔ ∃ r, r ≠ [] ∧ r `prefix_of` rest ∧ q = base ++ r.
Proof.
  revert base. induction rest as [|c rest IH]; intros base; simpl.
  - rewrite elem_of_nil. split; [done |].
    by intros (r & Hr & ->%prefix_nil_inv & _).
  - rewrite elem_of_cons, IH. split.
    + intros [-> | (r & Hr & Hpre & ->)].
      * exists [c]. split_and!; [done | | done]. apply prefix_cons, prefix_nil.
      * exists (c :: r). split_and!; [done | by apply prefix_cons |].
        by rewrite <- app_assoc.
    + intros (r & Hr & Hpre & ->). destruct r as [|c' r]; [done |].
      pose proof (prefix_cons_inv_1 _ _ _ _ Hpre) as ->.
      apply prefix_cons_inv_2 in Hpre. destruct r as [|c'' r]; [by left | right].
      exists (c'' :: r). split_and!; [done | done |]. by rewrite <- app_assoc.
Qed.

Lemma elem_of_ancestors p q : q ∈ Path.ancestors p ↔ q ≠ [] ∧ q `prefix_of` p.
Proof.
  unfold Path.ancestors. rewrite elem_of_ancestors_from. simpl. split.
  - by intros (r & Hr & Hpre & ->).
  - intros [Hq Hpre]. by exists q.
Qed.

Lemma ancestors_self p : p ≠ [] → p ∈ Path.ancestors p.
Proof. intros Hp. by apply elem_of_ancestors. Qed.

Lemma ancestors_app p q r : q ∈ Path.ancestors p → q ∈ Path.ancestors (p ++ r).
Proof. rewrite !elem_of_ancestors. intros [? ?]. split; [done | by apply prefix_app_r]. Qed.

Lemma lookup_node_ne m q : q ≠ [] → Path.lookup_node m q = m !! q.
Proof. by destruct q. Qed.

Lemma lookup_dirs_of p q :
  Path.dirs_of p !! q = if decide (q ∈ Path.ancestors p) then Some Dir else None.
Proof.
  unfold Path.dirs_of. case_decide as Hq.
  - destruct (list_to_map _ !! q) as [n|] eqn:Hn.
    + apply elem_of_list_to_map_2, list_elem_of_fmap in Hn as (q' & [= -> ->] & _). done.
    + apply not_elem_of_list_to_map_2 in Hn. exfalso. apply Hn.
      rewrite <- list_fmap_compose. by apply (list_elem_of_fmap_2' _ _ q).
  - apply not_elem_of_list_to_map_1. rewrite <- list_fmap_compose.
    intros (q' & -> & Hq')%list_elem_of_fmap. done.
Qed.

Lemma clear_path_lookup m p q :
  clear_path m p → q ∈ Path.ancestors p → m !! q = None ∨ m !! q = Some Dir.
Proof.
  intros Hclear Hq. specialize (Hclear q Hq). unfold Path.is_file in Hclear.
  rewrite lookup_node_ne in Hclear by by apply elem_of_ancestors in Hq as [? _].
  destruct (m !! q) as [[]|]; auto. done.
Qed.

(** [mkdir] succeeds on a clear path and adds the missing directories. *)
Lemma mkdir_clear p w :
  clear_path (fs w) p → Path.mkdir p w = Ok () (set_fs (fs w ∪ Path.dirs_of p) w).
Proof.
  intros Hclear. unfold Path.mkdir.
  by rewrite (proj2 (find_none_iff _ _) Hclear).
Qed.

Lemma mkdir_lookup m p q :
  clear_path m p → q ∈ Path.ancestors p → (m ∪ Path.dirs_of p) !! q = Some Dir.
Proof.
  intros Hclear Hq. destruct (clear_path_lookup _ _ _ Hclear Hq) as [Hn | Hd].
  - rewrite lookup_union_r by done. rewrite lookup_dirs_of. by rewrite decide_True.
  - by apply lookup_union_Some_l.
Qed.

(** [touch] below a directory adds an empty file unless a node is there. *)
Lemma touch_below_dir p w :
  p ≠ [] → Path.is_dir (fs w) (Path.parent p) = true →
  Path.touch p w = Ok () (set_fs (fs w ∪ {[ p := File EmptyString ]}) w).
Proof.
  intros Hp Hdir. unfold Path.touch, Path.parent_error. rewrite lookup_node_ne by done.
  rewrite Hdir.
  destruct (fs w !! p) as [n|] eqn:Hn.
  - f_equal. destruct w as [m i o wr c]. unfold set_fs. simpl in *. f_equal.
    apply map_eq. intros q. destruct (m !! q) eqn:Hq.
    + by erewrite lookup_union_Some_l.
    + rewrite lookup_union_r by done. symmetry. apply lookup_singleton_None. congruence.
  - by rewrite insert_union_singleton_r.
Qed.

End FileSystem.

(** ** The directory skeleton *)

Section Skeleton.

Implicit Types m : gmap (list string) node.
Implicit Types p q d out : list string.
Implicit Types dirs : list (list string).
Implicit Types w : world.

Lemma set_fs_id w : set_fs (fs w) w = w.
Proof. by destruct w. Qed.

Lemma set_fs_set_fs m m' w : set_fs m' (set_fs m w) = set_fs m' w.
Proof. done. Qed.

Lemma clear_path_union_dirs m p p' :
  clear_path m p' → clear_path (m ∪ Path.dirs_of p) p'.
Proof.
  intros Hclear q Hq. pose proof (clear_path_lookup _ _ _ Hclear Hq) as Hm.
  unfold Path.is_file. rewrite lookup_node_ne by by apply elem_of_ancestors in Hq as [? _].
  destruct Hm as [Hm | Hm].
  - rewrite lookup_union_r, lookup_dirs_of by done. by case_decide.
  - by rewrite (lookup_union_Some_l _ _ _ _ Hm).
Qed.

Lemma clear_path_union_file m p n p' :
  clear_path m p' → p ∉ Path.ancestors p' → clear_path (m ∪ {[ p := n ]}) p'.
Proof.
  intros Hclear Hp q Hq. pose proof (clear_path_lookup _ _ _ Hclear Hq) as Hm.
  unfold Path.is_file. rewrite lookup_node_ne by by apply elem_of_ancestors in Hq as [? _].
  destruct Hm as [Hm | Hm].
  - rewrite lookup_union_r by done. rewrite lookup_singleton_ne; [done | congruence].
  - by rewrite (lookup_union_Some_l _ _ _ _ Hm).
Qed.

Lemma is_dir_after_mkdir m p : clear_path m p → Path.is_dir (m ∪ Path.dirs_of p) p = true.
Proof.
  intros Hclear. unfold Path.is_dir. destruct p as [|c p]; [done |].
  rewrite lookup_node_ne by done. by rewrite mkdir_lookup by (done || by apply ancestors_self).
Qed.

Lemma marker_not_ancestor out d d' :
  ¬ (d ++ ["__init__.py"]) `prefix_of` d' → marker out d ∉ Path.ancestors (out ++ d').
Proof.
  intros Hno [_ Hpre]%elem_of_ancestors. apply Hno. unfold marker in Hpre.
  rewrite <- app_assoc in Hpre. by apply prefix_app_inv in Hpre.
Qed.

Lemma markers_apart_tail d dirs : markers_apart (d :: dirs) → markers_apart dirs.
Proof. intros Hap d1 d2 H1 H2. apply Hap; by right. Qed.

Lemma markers_apart_same_length dirs k :
  Forall (λ d, length d = k) dirs → markers_apart dirs.
Proof.
  rewrite Forall_forall. intros Hlen d d' Hd Hd' Hpre%prefix_length.
  rewrite length_app, (Hlen d Hd), (Hlen d' Hd') in Hpre. simpl in Hpre. lia.
Qed.

Lemma markers_apart_directories lang : markers_apart (directories lang).
Proof.
  apply (markers_apart_same_length _ 2). unfold directories.
  repeat case_decide; repeat constructor.
Qed.

(** The loop adds the skeleton to the file system. *)
Lemma create_directories_loop_result out fw dirs w :
  markers_apart dirs →
  (∀ d, d ∈ dirs → clear_path (fs w) (out ++ d)) →
  create_directories_loop out fw dirs w
  = Ok () (set_fs (fs w ∪ skeleton out (bool_decide (language fw = "Python")) dirs) w).
Proof.
  revert w. induction dirs as [|d dirs IH]; intros w Hap Hclear.
  - simpl. by rewrite (right_id_L ∅ (∪)), set_fs_id.
  - assert (clear_path (fs w) (out ++ d)) as Hd by (apply Hclear; by left).
    cbn [create_directories_loop skeleton]. unfold mbind, M_bind.
    rewrite mkdir_clear by done.
    destruct (decide (language fw = "Python")) as [Hpy | Hpy].
    + rewrite touch_below_dir; cycle 1.
      { by destruct (out ++ d). }
      { unfold Path.parent. rewrite removelast_last. by apply is_dir_after_mkdir. }
      rewrite IH; cycle 1.
      { by eapply markers_apart_tail. }
      { intros d' Hd'. simpl. apply clear_path_union_file.
        - apply clear_path_union_dirs. apply Hclear. by right.
        - apply marker_not_ancestor. apply Hap; [by left | by right]. }
      rewrite bool_decide_eq_true_2 by done. simpl. rewrite set_fs_set_fs.
      by rewrite !(assoc_L (∪)).
    + unfold mret, M_ret. rewrite IH; cycle 1.
      { by eapply markers_apart_tail. }
      { intros d' Hd'. simpl. apply clear_path_union_dirs. apply Hclear. by right. }
      rewrite bool_decide_eq_false_2 by done. simpl. rewrite set_fs_set_fs.
      by rewrite (right_id_L ∅ (∪)), !(assoc_L (∪)).
Qed.

Lemma create_directory_structure_result out fw w :
  (∀ d, d ∈ directories (language fw) → clear_path (fs w) (out ++ d)) →
  create_directory_structure out fw w
  = Ok () (printed Success "Created directory structure"
             (set_fs (fs w ∪ skeleton out (bool_decide (language fw = "Python"))
                                (directories (language fw))) w)).
Proof.
  intros Hclear. unfold create_directory_structure, mbind, M_bind.
  by rewrite create_directories_loop_result by (done || apply markers_apart_directories).
Qed.

(** What the skeleton holds. *)
Lemma skeleton_lookup_inv out python dirs q n :
  skeleton out python dirs !! q = Some n →
  (n = Dir ∧ ∃ d, d ∈ dirs ∧ q ∈ Path.ancestors (out ++ d))
  ∨ (python = true ∧ n = File "" ∧ ∃ d, d ∈ dirs ∧ q = marker out d).
Proof.
  induction dirs as [|d dirs IH]; simpl; [by rewrite lookup_empty |].
  rewrite !lookup_union_Some_raw.
  intros [[Hdir | [_ Hfile]] | [_ Hrest]].
  - rewrite lookup_dirs_of in Hdir. case_decide; [|done]. injection Hdir as <-.
    left. split; [done |]. exists d. split; [by left | done].
  - destruct python; [|by rewrite lookup_empty in Hfile].
    apply lookup_singleton_Some in Hfile as [<- <-].
    right. split_and!; [done | done |]. exists d. split; [by left | done].
  - destruct (IH Hrest) as [(-> & d' & Hd' & Hq) | (-> & -> & d' & Hd' & Hq)].
    + left. split; [done |]. exists d'. split; [by right | done].
    + right. split_and!; [done | done |]. exists d'. split; [by right | done].
Qed.

Lemma skeleton_lookup_dir out python dirs d q :
  markers_apart dirs → d ∈ dirs → q ∈ Path.ancestors (out ++ d) →
  skeleton out python dirs !! q = Some Dir.
Proof.
  induction dirs as [|d0 dirs IH]; intros Hap Hd Hq; [by apply elem_of_nil in Hd |].
  simpl. destruct (decide (q ∈ Path.ancestors (out ++ d0))) as [Hq0 | Hq0].
  - apply lookup_union_Some_l, lookup_union_Some_l.
    rewrite lookup_dirs_of. by rewrite decide_True.
  - apply elem_of_cons in Hd as [-> | Hd]; [done |].
    rewrite lookup_union_r; [apply IH; [by eapply markers_apart_tail | done | done] |].
    apply lookup_union_None. split; [rewrite lookup_dirs_of; by rewrite decide_False |].
    destruct python; [|by rewrite lookup_empty].
    apply lookup_singleton_None. intros <-.
    eapply marker_not_ancestor; [|exact Hq]. apply Hap; [by left | by right].
Qed.

Lemma skeleton_lookup_marker out dirs d :
  markers_apart dirs → d ∈ dirs →
  skeleton out true dirs !! marker out d = Some (File "").
Proof.
  induction dirs as [|d0 dirs IH]; intros Hap Hd; [by apply elem_of_nil in Hd |].
  simpl. assert (Path.dirs_of (out ++ d0) !! marker out d = None) as Hnone.
  { rewrite lookup_dirs_of. rewrite decide_False; [done |].
    apply marker_not_ancestor. apply Hap; [done | by left]. }
  destruct (decide (marker out d0 = marker out d)) as [Heq | Hne].
  - apply lookup_union_Some_l. rewrite lookup_union_r by done.
    rewrite Heq. apply lookup_singleton_eq.
  - apply elem_of_cons in Hd as [-> | Hd]; [done |].
    rewrite lookup_union_r; [apply IH; [by eapply markers_apart_tail | done] |].
    apply lookup_union_None. split; [done |]. by apply lookup_singleton_None.
Qed.

End Skeleton.

Lemma clear_path_empty p : clear_path ∅ p.
Proof.
  intros q Hq. unfold Path.is_file.
  rewrite lookup_node_ne by by apply elem_of_ancestors in Hq as [? _].
  by rewrite lookup_empty.
Qed.

(** C8. The list of directories is fixed by the language: eight for
    [Python], seven for [TypeScript], four for any other language.  When
    no regular file stands on the way to them,
    [create_directory_structure] succeeds; it keeps every node that was
    there; every listed directory (and every directory on the way to it)
    is a directory afterwards; for [Python] every listed directory holds
    the marker [__init__.py], which is the empty file wherever no node
    of that name was there; and every node that is new is either a
    directory on the way to a listed one or, for [Python] only, the
    empty marker of a listed directory.  No file is written through
    [open]. *)
Theorem create_directory_structure_exact out fw w :
  (∀ d, d ∈ directories (language fw) → clear_path (fs w) (out ++ d)) →
  (directories "Python"
   = [ ["src"; "services"]; ["src"; "config"]; ["src"; "operations"];
       ["src"; "utilities"]; ["tests"; "services"]; ["tests"; "config"];
       ["tests"; "operations"]; ["tests"; "utilities"] ]
   ∧ directories "TypeScript"
     = [ ["src"; "services"]; ["src"; "config"]; ["src"; "utils"]; ["src"; "types"];
         ["tests"; "services"]; ["tests"; "config"]; ["tests"; "utils"] ]
   ∧ ∀ lang, lang ≠ "Python" → lang ≠ "TypeScript" →
       directories lang
       = [ ["src"; "services"]; ["src"; "config"]; ["tests"; "services"];
           ["tests"; "config"] ])
  ∧ ∃ w',
      create_directory_structure out fw w = Ok () w'
      ∧ written w' = written w
      ∧ (∀ q n, fs w !! q = Some n → fs w' !! q = Some n)
      ∧ (∀ d q, d ∈ directories (language fw) → q ∈ Path.ancestors (out ++ d) →
           fs w' !! q = Some Dir)
      ∧ (language fw = "Python" →
           ∀ d, d ∈ directories (language fw) →
             is_Some (fs w' !! marker out d)
             ∧ (fs w !! marker out d = None → fs w' !! marker out d = Some (File "")))
      ∧ (∀ q n, fs w !! q = None → fs w' !! q = Some n →
           (n = Dir ∧ ∃ d, d ∈ directories (language fw) ∧ q ∈ Path.ancestors (out ++ d))
           ∨ (language fw = "Python" ∧ n = File ""
              ∧ ∃ d, d ∈ directories (language fw) ∧ q = marker out d)).
Proof.
  intros Hclear. split.
  { split_and!; [done | done |]. intros lang H1 H2. unfold directories.
    by rewrite !decide_False. }
  pose proof (markers_apart_directories (language fw)) as Hap.
  eexists. split; [by apply create_directory_structure_result |].
  simpl. split_and!.
  - done.
  - intros q n Hq. by apply lookup_union_Some_l.
  - intros d q Hd Hq.
    destruct (clear_path_lookup _ _ _ (Hclear d Hd) Hq) as [Hn | Hn].
    + rewrite lookup_union_r by done. by eapply skeleton_lookup_dir.
    + by apply lookup_union_Some_l.
  - intros Hpy d Hd. rewrite bool_decide_eq_true_2 by done.
    pose proof (skeleton_lookup_marker out _ d Hap Hd) as Hm.
    split.
    + apply lookup_union_is_Some. right. by eexists.
    + intros Hnone. by rewrite lookup_union_r.
  - intros q n Hnone Hq. rewrite lookup_union_r in Hq by done.
    apply skeleton_lookup_inv in Hq as [Hq | (Hpy%bool_decide_eq_true & Hq)]; auto.
Qed.

Lemma create_directory_structure_exact_witness :
  ∃ w',
    create_directory_structure ["out"] fastapi empty_world = Ok () w'
    ∧ fs w' !! ["out"; "tests"; "utilities"] = Some Dir
    ∧ fs w' !! ["out"; "tests"; "utilities"; "__init__.py"] = Some (File "").
Proof.
  destruct (create_directory_structure_exact ["out"] fastapi empty_world)
    as (_ & w' & Hrun & _ & _ & Hdirs & Hmarkers & _).
  - intros d _. apply clear_path_empty.
  - exists w'. split_and!.
    + exact Hrun.
    + apply (Hdirs ["tests"; "utilities"]).
      * apply (bool_decide_unpack _). vm_compute. exact I.
      * apply (bool_decide_unpack _). vm_compute. exact I.
    + apply (Hmarkers eq_refl ["tests"; "utilities"]).
      * apply (bool_decide_unpack _). vm_compute. exact I.
      * reflexivity.
Defined.

(** C9. When no regular file stands on the way to the listed
    directories, [create_directory_structure] succeeds, and a second run
    on the tree that the first one leaves, where all the directories
    exist already, succeeds as well and leaves the same tree. *)
Theorem create_directory_structure_idempotent out fw w :
  (∀ d, d ∈ directories (language fw) → clear_path (fs w) (out ++ d)) →
  ∃ w1 w2,
    create_directory_structure out fw w = Ok () w1
    ∧ create_directory_structure out fw w1 = Ok () w2
    ∧ fs w2 = fs w1.
Proof.
  intros Hclear. pose proof (markers_apart_directories (language fw)) as Hap.
  eexists. eexists. split; [by apply create_directory_structure_result |].
  split.
  - apply create_directory_structure_result. intros d Hd q Hq. simpl.
    unfold Path.is_file.
    rewrite lookup_node_ne by by apply elem_of_ancestors in Hq as [? _].
    destruct (clear_path_lookup _ _ _ (Hclear d Hd) Hq) as [Hn | Hn].
    + rewrite lookup_union_r by done. by erewrite skeleton_lookup_dir.
    + by rewrite (lookup_union_Some_l _ _ _ _ Hn).
  - simpl. by rewrite <- (assoc_L (∪)), (idemp_L (∪)).
Qed.

Lemma create_directory_structure_idempotent_witness :
  ∃ w1 w2,
    create_directory_structure ["out"] fastapi empty_world = Ok () w1
    ∧ create_directory_structure ["out"] fastapi w1 = Ok () w2
    ∧ fs w2 = fs w1.
Proof.
  apply create_directory_structure_idempotent. intros d _. apply clear_path_empty.
Defined.

(** ** The templates *)

Lemma clear_path_forallb m p :
  forallb (λ q, negb (Path.is_file m q)) (Path.ancestors p) = true → clear_path m p.
Proof.
  rewrite forallb_forall. intros Hall q Hq%list_elem_of_In.
  by apply negb_true_iff, Hall.
Qed.

Lemma exists_false m p : Path.exists_ m p = false → Path.lookup_node m p = None.
Proof.
  unfold Path.exists_. intros Hex%bool_decide_eq_false.
  destruct (Path.lookup_node m p); [|done]. exfalso. apply Hex. by eexists.
Qed.

Lemma lookup_file_exists m p content :
  Path.lookup_node m p = Some (File content) → Path.exists_ m p = true.
Proof. intros Hp. unfold Path.exists_. rewrite Hp. apply bool_decide_eq_true. by eexists. Qed.

(** A path that is not an ancestor of [p] is as it was after [mkdir p]. *)
Lemma lookup_node_after_mkdir m p q :
  q ∉ Path.ancestors p →
  Path.lookup_node (m ∪ Path.dirs_of p) q = Path.lookup_node m q.
Proof.
  intros Hq. destruct q as [|c q]; [done |]. simpl.
  destruct (m !! (c :: q)) as [n|] eqn:Hn.
  - by apply lookup_union_Some_l.
  - rewrite lookup_union_r by done. rewrite lookup_dirs_of. by rewrite decide_False.
Qed.

Lemma lookup_file_after_mkdir m p q content :
  Path.lookup_node m q = Some (File content) →
  Path.lookup_node (m ∪ Path.dirs_of p) q = Some (File content).
Proof.
  destruct q as [|c q]; [done |]. simpl. intros Hq. by apply lookup_union_Some_l.
Qed.

Lemma child_not_ancestor p c : p ++ [c] ∉ Path.ancestors p.
Proof. intros [_ Hpre]%elem_of_ancestors. by apply prefix_snoc_not in Hpre. Qed.

(** Writing a file into a directory. *)
Lemma write_text_below_dir p content w :
  p ≠ [] → Path.is_dir (fs w) p = false → Path.is_dir (fs w) (Path.parent p) = true →
  Path.write_text p content w
  = Ok () (mkWorld (<[p := File content]> (fs w)) (stdin w) (stdout w)
                   (written w ++ [(p, content)]) (clock w)).
Proof.
  unfold Path.write_text, Path.parent_error, Path.is_dir. intros Hp Hnodir Hparent.
  destruct (Path.lookup_node (fs w) (Path.parent p)) as [[]|]; try done.
  by destruct (Path.lookup_node (fs w) p) as [[]|].
Qed.

Lemma generate_from_base_template_missing self config out w :
  Path.exists_ (fs w) (base_template self) = false →
  generate_from_base_template self config out w
  = Ok None (printed Warning
               ("Base template not found: " +:+ Path.str (base_template self)) w).
Proof.
  intros Hex. unfold generate_from_base_template, get_fs, mbind, M_bind. by rewrite Hex.
Qed.

(** Reading a file whose bytes are a text. *)
Lemma read_text_file p content w :
  Path.lookup_node (fs w) p = Some (File content) →
  Str.well_encoded content = true →
  Path.read_text p w = Ok (Str.universal_newlines content) w.
Proof.
  intros Hfile Hok%bool_decide_eq_true. unfold Path.read_text. by rewrite Hfile, Hok.
Qed.

(** Reading a file whose bytes are no text. *)
Lemma read_text_undecodable p content error w :
  Path.lookup_node (fs w) p = Some (File content) →
  Str.first_error content = Some error →
  Path.read_text p w = Raise (UnicodeDecodeError error) w.
Proof. intros Hfile Herror. unfold Path.read_text. by rewrite Hfile, Herror. Qed.

Lemma generate_from_base_template_present self config out w content :
  Path.lookup_node (fs w) (base_template self) = Some (File content) →
  Str.well_encoded content = true →
  clear_path (fs w) out →
  Path.is_dir (fs w) (out ++ ["COPILOT_INSTRUCTIONS.md"]) = false →
  generate_from_base_template self config out w
  = Ok (Some (out ++ ["COPILOT_INSTRUCTIONS.md"]))
       (printed Success "Generated: COPILOT_INSTRUCTIONS.md"
          (mkWorld (<[out ++ ["COPILOT_INSTRUCTIONS.md"]
                      := File (replace_variables (clock w)
                                 (Str.universal_newlines content) config)]>
                      (fs w ∪ Path.dirs_of out))
                   (stdin w) (stdout w)
                   (written w ++ [(out ++ ["COPILOT_INSTRUCTIONS.md"],
                                   replace_variables (clock w)
                                     (Str.universal_newlines content) config)])
                   (clock w))).
Proof.
  intros Hbase Htext Hclear Hfile.
  unfold generate_from_base_template, get_fs, get_clock, mbind, M_bind.
  rewrite (lookup_file_exists _ _ _ Hbase). cbn [negb].
  rewrite mkdir_clear by done.
  rewrite (read_text_file _ content)
    by (done || cbn [fs set_fs]; by apply lookup_file_after_mkdir).
  rewrite write_text_below_dir; [done | by destruct out | |].
  - cbn [fs set_fs]. unfold Path.is_dir in *.
    by rewrite lookup_node_after_mkdir by apply child_not_ancestor.
  - cbn [fs set_fs]. unfold Path.parent. rewrite removelast_last.
    by apply is_dir_after_mkdir.
Qed.



(** ** Copying the framework template *)

Section Paths.

Implicit Types p q r x base out : list string.

Lemma apart_not_prefix base out x : apart base out → ¬ base `prefix_of` (out ++ x).
Proof.
  intros [H1 H2] Hpre.
  destruct (prefix_weak_total base out (out ++ x)); [done | by apply prefix_app_r | done..].
Qed.

Lemma relative_to_app base rel : Path.relative_to base (base ++ rel) = rel.
Proof. unfold Path.relative_to. apply drop_app_length. Qed.

Lemma prefix_relative_to base p : base `prefix_of` p → p = base ++ Path.relative_to base p.
Proof. intros [rel ->]. by rewrite relative_to_app. Qed.

Lemma prefix_app_cases q out x :
  q `prefix_of` out ++ x → q `prefix_of` out ∨ ∃ r, r ≠ [] ∧ q = out ++ r ∧ r `prefix_of` x.
Proof.
  revert q. induction out as [|c out IH]; intros q Hpre.
  - destruct q as [|c q]; [left; apply prefix_nil | right]. by exists (c :: q).
  - destruct q as [|c' q]; [left; apply prefix_nil |]. simpl in Hpre.
    pose proof (prefix_cons_inv_1 _ _ _ _ Hpre) as ->.
    apply prefix_cons_inv_2, IH in Hpre as [Hpre | (r & Hr & -> & Hpre)].
    + left. by apply prefix_cons.
    + right. by exists r.
Qed.

Lemma ancestors_app_cases q out x :
  q ∈ Path.ancestors (out ++ x) →
  q ∈ Path.ancestors out ∨ ∃ r, r ≠ [] ∧ q = out ++ r ∧ r `prefix_of` x.
Proof.
  intros [Hq Hpre]%elem_of_ancestors.
  apply prefix_app_cases in Hpre as [Hpre | Hr]; [left | by right].
  by apply elem_of_ancestors.
Qed.

Lemma prefix_removelast r rel :
  rel ≠ [] → r `prefix_of` removelast rel → r `prefix_of` rel ∧ r ≠ rel.
Proof.
  intros Hrel Hpre. pose proof (app_removelast_last "" Hrel) as Hsplit.
  split.
  - rewrite Hsplit. by apply prefix_app_r.
  - intros ->. apply prefix_length in Hpre.
    apply (f_equal length) in Hsplit. rewrite length_app in Hsplit. simpl in Hsplit. lia.
Qed.

Lemma parent_app out rel : rel ≠ [] → Path.parent (out ++ rel) = out ++ removelast rel.
Proof. intros Hrel. unfold Path.parent. by apply removelast_app. Qed.

Lemma destination_inj base out p q :
  base `prefix_of` p → base `prefix_of` q →
  destination base out p = destination base out q → p = q.
Proof.
  intros Hp%prefix_relative_to Hq%prefix_relative_to Heq. unfold destination in Heq.
  apply (inj (app out)) in Heq. congruence.
Qed.

End Paths.

Section Copy.

Variable config : ProjectConfig.
Variables fwd out : list string.
Variable m0 : gmap (list string) node.
Hypothesis Hwf : well_formed m0.
Hypothesis Hapart : apart fwd out.

Implicit Types m : gmap (list string) node.
Implicit Types p q rel : list string.
Implicit Types w : world.

Lemma lookup_after_mkdir m p q :
  q ∉ Path.ancestors p → (m ∪ Path.dirs_of p) !! q = m !! q.
Proof.
  intros Hq. destruct (m !! q) as [n|] eqn:Hn.
  - by apply lookup_union_Some_l.
  - rewrite lookup_union_r by done. rewrite lookup_dirs_of. by rewrite decide_False.
Qed.

Lemma below_nonempty p : fwd `prefix_of` p → p ≠ fwd → p ≠ [].
Proof. intros Hpre Hne ->. apply prefix_nil_inv in Hpre. congruence. Qed.

Lemma inv_is_file m p :
  copy_inv m0 fwd out m → fwd `prefix_of` p → p ≠ fwd →
  Path.is_file m p = Path.is_file m0 p.
Proof.
  intros (Hsame & _) Hpre Hne. unfold Path.is_file.
  rewrite !lookup_node_ne by by apply below_nonempty. by rewrite Hsame.
Qed.

(** In the template tree the places above a node are directories. *)
Lemma template_parent_dir rel r :
  is_Some (m0 !! (fwd ++ rel)) → r ≠ [] → r `prefix_of` rel → r ≠ rel →
  m0 !! (fwd ++ r) = Some Dir.
Proof.
  intros Hrel Hr Hpre Hne. apply (Hwf (fwd ++ rel)); [done | |].
  - apply elem_of_ancestors. split; [by destruct fwd, r | by apply prefix_app].
  - intros Heq. by apply (inj (app fwd)) in Heq.
Qed.

Lemma child_not_above rel : rel ≠ [] → out ++ rel ∉ Path.ancestors (out ++ removelast rel).
Proof.
  intros Hrel [_ Hpre]%elem_of_ancestors. apply prefix_app_inv in Hpre.
  by apply prefix_removelast in Hpre as [_ ?].
Qed.

Lemma copy_file_clear m rel c :
  copy_inv m0 fwd out m → rel ≠ [] → m0 !! (fwd ++ rel) = Some (File c) →
  clear_path m (out ++ removelast rel).
Proof.
  intros (_ & Hrecv & Hout) Hrel Hfile q Hq. pose proof Hq as [Hne _]%elem_of_ancestors.
  unfold Path.is_file. rewrite lookup_node_ne by done.
  apply ancestors_app_cases in Hq as [Hq | (r & Hr & -> & Hpre)].
  - by rewrite (Hout q Hq).
  - apply prefix_removelast in Hpre as [Hpre Hne']; [|done].
    destruct (m !! (out ++ r)) as [n'|] eqn:Hn; [|done].
    assert (m0 !! (fwd ++ r) = Some Dir) as Hdir by by eapply template_parent_dir.
    pose proof (Hrecv r _ _ Hr Hdir Hn) as Hkind. by destruct n'.
Qed.

Lemma copy_file_target m rel c :
  copy_inv m0 fwd out m → rel ≠ [] → m0 !! (fwd ++ rel) = Some (File c) →
  Path.is_dir (m ∪ Path.dirs_of (out ++ removelast rel)) (out ++ rel) = false.
Proof.
  intros (_ & Hrecv & _) Hrel Hfile. unfold Path.is_dir.
  rewrite lookup_node_after_mkdir by by apply child_not_above.
  rewrite lookup_node_ne by by destruct out, rel.
  destruct (m !! (out ++ rel)) as [n'|] eqn:Hn; [|done].
  pose proof (Hrecv rel _ _ Hrel Hfile Hn) as Hkind. by destruct n'.
Qed.

Lemma copy_inv_step m rel c c' :
  copy_inv m0 fwd out m → rel ≠ [] → m0 !! (fwd ++ rel) = Some (File c) →
  copy_inv m0 fwd out (<[out ++ rel := File c']> (m ∪ Path.dirs_of (out ++ removelast rel))).
Proof.
  intros (Hsame & Hrecv & Hout) Hrel Hfile. split_and!.
  - intros p Hp. rewrite lookup_insert_ne, lookup_after_mkdir; [by apply Hsame | |].
    + intros [_ Hpre]%elem_of_ancestors.
      eapply apart_not_prefix; [exact Hapart | by etrans].
    + intros <-. by eapply apart_not_prefix.
  - intros rel2 n n' Hrel2 Hn. destruct (decide (rel2 = rel)) as [-> | Hne].
    + rewrite lookup_insert_eq. intros [= <-]. rewrite Hfile in Hn. by injection Hn as <-.
    + rewrite lookup_insert_ne by (intros Heq; by apply (inj (app out)) in Heq).
      intros [Hm | [_ Hd]]%lookup_union_Some_raw; [by eapply Hrecv |].
      rewrite lookup_dirs_of in Hd. case_decide as Hanc; [|done]. injection Hd as <-.
      apply elem_of_ancestors in Hanc as [_ Hpre]. apply prefix_app_inv in Hpre.
      apply prefix_removelast in Hpre as [Hpre Hne']; [|done].
      rewrite (template_parent_dir rel rel2) in Hn by done. by injection Hn as <-.
  - intros q Hq. rewrite lookup_insert_ne.
    + apply lookup_union_Some_l. by apply Hout.
    + intros <-. apply elem_of_ancestors in Hq as [_ Hpre%prefix_length].
      rewrite length_app in Hpre. destruct rel; [done |]. simpl in Hpre. lia.
Qed.

(** One round of the loop on a regular file. *)
Lemma copy_loop_file p entries acc w c :
  copy_inv m0 fwd out (fs w) → fwd `prefix_of` p → p ≠ fwd → m0 !! p = Some (File c) →
  Str.well_encoded c = true →
  copy_loop config fwd out (p :: entries) acc w
  = copy_loop config fwd out entries (acc ++ [destination fwd out p])
      (printed Success ("Created: " +:+ Path.str (Path.relative_to fwd p))
         (mkWorld (<[destination fwd out p
                     := File (replace_variables (clock w) (Str.universal_newlines c) config)]>
                     (fs w ∪ Path.dirs_of (Path.parent (destination fwd out p))))
                  (stdin w) (stdout w)
                  (written w ++ [(destination fwd out p,
                                  replace_variables (clock w) (Str.universal_newlines c)
                                    config)])
                  (clock w))).
Proof.
  intros Hinv Hpre Hne Hfile Htext. pose proof (prefix_relative_to _ _ Hpre) as Hp.
  set (rel := Path.relative_to fwd p) in *.
  assert (rel ≠ []) as Hrel by (intros Hnil; rewrite Hnil, app_nil_r in Hp; done).
  rewrite Hp in Hfile. pose proof Hinv as (Hsame & _).
  assert (Path.is_file (fs w) p = true) as Hisfile.
  { rewrite (inv_is_file _ _ Hinv Hpre Hne). unfold Path.is_file.
    rewrite lookup_node_ne by by apply below_nonempty. by rewrite Hp, Hfile. }
  cbn [copy_loop]. unfold get_fs, get_clock, mbind, M_bind. rewrite Hisfile.
  fold rel. unfold destination. fold rel. rewrite parent_app by done.
  rewrite mkdir_clear by by eapply copy_file_clear.
  assert (Path.lookup_node (fs w) p = Some (File c)) as Hread.
  { rewrite lookup_node_ne by by apply below_nonempty. rewrite Hsame by done.
    by rewrite Hp. }
  rewrite (read_text_file _ c)
    by (done || cbn [fs set_fs]; by apply lookup_file_after_mkdir).
  rewrite write_text_below_dir; [done | by destruct out, rel | |].
  - cbn [fs set_fs]. by eapply copy_file_target.
  - cbn [fs set_fs]. rewrite parent_app by done. apply is_dir_after_mkdir.
    by eapply copy_file_clear.
Qed.

Lemma copy_loop_other p entries acc w :
  copy_inv m0 fwd out (fs w) → fwd `prefix_of` p → p ≠ fwd → Path.is_file m0 p = false →
  copy_loop config fwd out (p :: entries) acc w = copy_loop config fwd out entries acc w.
Proof.
  intros Hinv Hpre Hne Hno. cbn [copy_loop]. unfold get_fs, mbind, M_bind.
  by rewrite (inv_is_file _ _ Hinv Hpre Hne), Hno.
Qed.

Lemma dir_not_destination m p q c :
  copy_inv m0 fwd out m → fwd `prefix_of` p → p ≠ fwd → m0 !! p = Some (File c) →
  m !! q = Some Dir → q ≠ destination fwd out p.
Proof.
  intros (_ & Hrecv & _) Hpre Hne Hfile Hq ->.
  pose proof (prefix_relative_to _ _ Hpre) as Hp. rewrite Hp in Hfile.
  unfold destination in Hq. eapply (Hrecv _ _ _ _ Hfile Hq).
  Unshelve. intros Hnil. rewrite Hnil, app_nil_r in Hp. done.
Qed.

(** The loop copies the regular files among the entries, in their
    order, and leaves everything else alone. *)
Lemma copy_loop_spec entries acc w :
  NoDup entries →
  Forall (λ p, fwd `prefix_of` p ∧ p ≠ fwd) entries →
  texts_below m0 fwd →
  copy_inv m0 fwd out (fs w) →
  ∃ w',
    copy_loop config fwd out entries acc w
    = Ok (acc ++ (destination fwd out
                    <$> filter (λ p, Path.is_file m0 p = true) entries)) w'
    ∧ written w'
      = written w ++ ((λ p, (destination fwd out p, copied_text (clock w) config m0 p))
                        <$> filter (λ p, Path.is_file m0 p = true) entries)
    ∧ clock w' = clock w
    ∧ copy_inv m0 fwd out (fs w')
    ∧ (∀ p, p ∈ filter (λ p, Path.is_file m0 p = true) entries →
         fs w' !! destination fwd out p = Some (File (copied_text (clock w) config m0 p))
         ∧ ∀ q, q ∈ Path.ancestors (Path.parent (destination fwd out p)) →
                fs w' !! q = Some Dir)
    ∧ (∀ q n, fs w !! q = Some n →
         (∀ p, p ∈ filter (λ p, Path.is_file m0 p = true) entries →
               q ≠ destination fwd out p) →
         fs w' !! q = Some n).
Proof.
  revert acc w. induction entries as [|p entries IH]; intros acc w Hnd Hall Htexts Hinv.
  - exists w. simpl. rewrite !app_nil_r. split_and!; try done.
    by intros p ?%elem_of_nil.
  - apply NoDup_cons in Hnd as [Hp Hnd]. apply Forall_cons in Hall as [[Hpre Hne] Hall].
    destruct (Path.is_file m0 p) eqn:Hfile.
    + assert (∃ c, m0 !! p = Some (File c)) as [c Hc].
      { unfold Path.is_file in Hfile. rewrite lookup_node_ne in Hfile by by apply below_nonempty.
        destruct (m0 !! p) as [[c|]|]; [by exists c | done..]. }
      assert (copied_text (clock w) config m0 p
              = replace_variables (clock w) (Str.universal_newlines c) config)
        as Htext by (unfold copied_text, content_at; by rewrite Hc).
      pose proof (prefix_relative_to _ _ Hpre) as Hrel.
      assert (Path.relative_to fwd p ≠ []) as Hrelne
        by (intros Hnil; rewrite Hnil, app_nil_r in Hrel; done).
      rewrite (copy_loop_file _ _ _ _ c) by (done || by eapply Htexts).
      rewrite filter_cons_True by done. rewrite !fmap_cons.
      match goal with |- context [copy_loop _ _ _ _ _ ?w1] => set (w1' := w1) end.
      assert (copy_inv m0 fwd out (fs w1')) as Hinv1.
      { subst w1'. cbn [printed print fs]. unfold destination.
        rewrite parent_app by done. apply (copy_inv_step _ _ c); [done.. |].
        by rewrite <- Hrel. }
      destruct (IH (acc ++ [destination fwd out p]) w1' Hnd Hall Htexts Hinv1)
        as (w' & Hrun & Hwr & Hclk & Hinv' & Hfiles & Hframe).
      assert (∀ p', p' ∈ filter (λ p, Path.is_file m0 p = true) entries →
                    destination fwd out p ≠ destination fwd out p') as Hfresh.
      { intros p' [_ Hp']%list_elem_of_filter Heq.
        rewrite Forall_forall in Hall. destruct (Hall p' Hp') as [Hpre' _].
        apply destination_inj in Heq; [congruence | done..]. }
      exists w'. rewrite Hrun, Hwr, Hclk. subst w1'. cbn [printed print written clock fs] in *.
      rewrite <- !app_assoc. rewrite Htext. split_and!; try done.
      * intros p' [-> | Hp']%elem_of_cons; [|by apply Hfiles].
        split.
        -- rewrite Htext. apply Hframe; [apply lookup_insert_eq | done].
        -- intros q Hq. apply Hframe.
           ++ unfold destination in *. rewrite parent_app in Hq |- * by done.
              rewrite lookup_insert_ne by (intros <-; by eapply child_not_above).
              apply mkdir_lookup; [by eapply copy_file_clear; [| |rewrite <- Hrel] | done].
           ++ intros p' [Hf' Hp']%list_elem_of_filter.
              rewrite Forall_forall in Hall. destruct (Hall p' Hp') as [Hpre' Hne'].
              unfold Path.is_file in Hf'.
              rewrite lookup_node_ne in Hf' by by apply below_nonempty.
              destruct (m0 !! p') as [[c'|]|] eqn:Hc'; try done.
              eapply (dir_not_destination _ p' q c' Hinv1); [done.. |].
              unfold destination in *. rewrite parent_app in Hq |- * by done.
              rewrite lookup_insert_ne by (intros <-; by eapply child_not_above).
              apply mkdir_lookup; [by eapply copy_file_clear; [| |rewrite <- Hrel] | done].
      * intros q n Hq Hnot. apply Hframe.
        -- rewrite lookup_insert_ne
             by (intros Heq; apply (Hnot p); [apply elem_of_cons; by left | done]).
           by apply lookup_union_Some_l.
        -- intros p' Hp'. apply Hnot. by right.
    + rewrite copy_loop_other by done. rewrite filter_cons_False by congruence.
      by apply IH.
Qed.

End Copy.

Lemma rglob_NoDup (m : gmap (list string) node) p : NoDup (Path.rglob m p).
Proof. unfold Path.rglob. apply NoDup_filter, NoDup_fst_map_to_list. Qed.

Lemma elem_of_rglob (m : gmap (list string) node) p q :
  q ∈ Path.rglob m p ↔ (p `prefix_of` q ∧ q ≠ p) ∧ is_Some (m !! q).
Proof.
  unfold Path.rglob. rewrite list_elem_of_filter, list_elem_of_fmap.
  split; intros [Hq Hin]; (split; [done |]).
  - destruct Hin as ([q' n] & -> & Hin%elem_of_map_to_list). by exists n.
  - destruct Hin as [n Hn]. exists (q, n). split; [done | by apply elem_of_map_to_list].
Qed.

Lemma well_formed_checked (m : gmap (list string) node) :
  well_formed_check m = true → well_formed m.
Proof.
  unfold well_formed_check. rewrite forallb_forall.
  intros Hall p q [n Hn] Hq Hne.
  specialize (Hall (p, n)). rewrite forallb_forall in Hall.
  assert (bool_decide (q = p) || Path.is_dir m q = true) as Hcheck.
  { apply Hall; [by apply list_elem_of_In, elem_of_map_to_list | by apply list_elem_of_In]. }
  rewrite bool_decide_eq_false_2 in Hcheck by done. simpl in Hcheck.
  unfold Path.is_dir in Hcheck.
  rewrite lookup_node_ne in Hcheck by by apply elem_of_ancestors in Hq as [? _].
  by destruct (m !! q) as [[]|].
Qed.

Lemma receives_checked (m : gmap (list string) node) fwd out :
  receives_check m fwd out = true → receives m fwd out.
Proof.
  unfold receives_check. rewrite forallb_forall.
  intros Hall rel n n' Hrel Hn Hn'.
  specialize (Hall (fwd ++ rel, n)). simpl in Hall.
  rewrite bool_decide_eq_true_2, relative_to_app, Hn' in Hall by by apply prefix_app_r.
  rewrite (bool_decide_eq_false_2 (fwd ++ rel = fwd)) in Hall.
  - rewrite orb_false_r in Hall. apply (bool_decide_eq_true (same_kind n n')), Hall.
    by apply list_elem_of_In, elem_of_map_to_list.
  - intros Heq. rewrite <- (app_nil_r fwd) in Heq at 2. by apply (inj (app fwd)) in Heq.
Qed.

Lemma texts_below_checked (m : gmap (list string) node) fwd :
  texts_below_check m fwd = true → texts_below m fwd.
Proof.
  unfold texts_below_check. rewrite forallb_forall.
  intros Hall p content Hpre Hp.
  specialize (Hall (p, File content)). simpl in Hall.
  rewrite bool_decide_eq_true_2 in Hall by done.
  by apply Hall, list_elem_of_In, elem_of_map_to_list.
Qed.




(** What reading in text mode does to the copies: the line ends of the
    template become [LF], and a template that is no text in UTF-8 ends
    the copy with [UnicodeDecodeError] before its file is written. *)
Example copy_framework_template_reads_text :
  (∃ w', copy_framework_template (mkGenerator ["templates"]) demo_config ["out"]
           (template_world_with
              ("Hello" +:+ String Str.CR (String Str.LF "{{AUTHOR}}" +:+ String Str.CR "")))
         = Ok [["out"; "foo"; "bar.txt"]] w'
         ∧ written w'
           = [(["out"; "foo"; "bar.txt"],
               "Hello" +:+ String Str.LF "Your Team" +:+ String Str.LF "")])
  ∧ (∃ w', copy_framework_template (mkGenerator ["templates"]) demo_config ["out"]
             (template_world_with ("Hello " +:+ String (ascii_of_nat 255) ""))
           = Raise (UnicodeDecodeError
                      (Str.mkDecodeError (ascii_of_nat 255) 6 1 "invalid start byte")) w'
           ∧ written w' = []
           ∧ exn_text (UnicodeDecodeError
                         (Str.mkDecodeError (ascii_of_nat 255) 6 1 "invalid start byte"))
             = "'utf-8' codec can't decode byte 0xff in position 6: invalid start byte").
Proof. split; eexists; vm_compute; done. Qed.

(** ** Listing and selecting the frameworks *)

Section Selection.

Implicit Types w : world.

Lemma failures_app l1 l2 : failures (l1 ++ l2) = failures l1 + failures l2.
Proof. unfold failures. by rewrite filter_app, length_app. Qed.

Lemma list_frameworks_loop_result i items w :
  list_frameworks_loop (S i) items w
  = Ok () (mkWorld (fs w) (stdin w)
             (stdout w ++ concat (imap (λ k item, framework_lines (i + k) item) items))
             (written w) (clock w)).
Proof.
  revert i w. induction items as [|[key config] items IH]; intros i w.
  - simpl. rewrite app_nil_r. by destruct w.
  - cbn [list_frameworks_loop]. unfold mbind, M_bind, print. rewrite IH.
    cbn [fs stdin stdout written clock imap concat]. do 2 f_equal.
    rewrite <- !app_assoc. unfold framework_lines at 2. cbn [snd app].
    rewrite Nat.add_0_r. do 6 f_equal. apply imap_ext. intros k item _. simpl.
    by rewrite Nat.add_succ_r.
Qed.

Lemma list_frameworks_result w :
  list_frameworks w
  = Ok () (mkWorld (fs w) (stdin w)
             (stdout w ++ (Header, "Available Frameworks")
                          :: concat (imap framework_lines FRAMEWORKS))
             (written w) (clock w)).
Proof.
  unfold list_frameworks, mbind, M_bind, print_header, print.
  rewrite list_frameworks_loop_result. cbn [fs stdin stdout written clock].
  by rewrite <- app_assoc.
Qed.

Lemma select_step_chosen i pending w entered config :
  head (stdin w) = Some (Line entered) → selects entered = Some config →
  select_framework_loop (i :: pending) w
  = Ok config (printed Success ("Selected: " +:+ display_name config)
                 (after_input selection_prompt w)).
Proof.
  intros Hin Hsel. cbn [select_framework_loop]. unfold mbind, M_bind.
  rewrite (get_user_input_line _ _ entered) by done. unfold selects in Hsel.
  destruct (int (answer entered (Some "1"))) as [n|]; [|done].
  destruct (bool_decide _); [|done]. by rewrite Hsel.
Qed.

Lemma select_step_rejected i pending w entered :
  head (stdin w) = Some (Line entered) → selects entered = None →
  ∃ message,
    select_framework_loop (i :: pending) w
    = select_framework_loop pending
        (printed Failure message (after_input selection_prompt w)).
Proof.
  intros Hin Hsel. cbn [select_framework_loop]. unfold mbind, M_bind.
  rewrite (get_user_input_line _ _ entered) by done. unfold selects in Hsel.
  destruct (int (answer entered (Some "1"))) as [n|]; [|by eexists].
  destruct (bool_decide _) eqn:Hrange; [|by eexists].
  apply bool_decide_eq_true in Hrange.
  apply lookup_ge_None in Hsel. rewrite length_fmap in Hsel. lia.
Qed.

(** The rounds of the loop on entries that are rejected, up to an entry
    that is accepted. *)
Lemma select_framework_loop_retries bads good rest config w :
  stdin w = (Line <$> bads) ++ Line good :: rest →
  Forall (λ entered, selects entered = None) bads →
  selects good = Some config →
  ∃ w', select_framework_loop (stdin w) w = Ok config w'
        ∧ stdin w' = rest ∧ same_files w w'
        ∧ failures (stdout w') = failures (stdout w) + length bads.
Proof.
  revert w. induction bads as [|bad bads IH]; intros w Hin Hbads Hgood.
  - rewrite fmap_nil, app_nil_l in Hin. rewrite Hin.
    rewrite (select_step_chosen _ _ _ good config) by (rewrite ?Hin; done).
    eexists. split_and!; [done | simpl; by rewrite Hin | done |].
    simpl. rewrite !failures_app. unfold failures. simpl. lia.
  - apply Forall_cons in Hbads as [Hbad Hbads].
    rewrite fmap_cons, <- app_comm_cons in Hin. rewrite Hin.
    destruct (select_step_rejected (Line bad) ((Line <$> bads) ++ Line good :: rest) w bad)
      as [message ->]; [by rewrite Hin | done |].
    assert (stdin (printed Failure message (after_input selection_prompt w))
            = (Line <$> bads) ++ Line good :: rest) as Hin' by (simpl; by rewrite Hin).
    destruct (IH _ Hin' Hbads Hgood) as (w' & Hrun & Hrest & Hsame & Hfail).
    rewrite Hin' in Hrun.
    exists w'. split_and!; [done | done | |].
    + eapply same_files_trans; [|exact Hsame]. done.
    + rewrite Hfail. simpl. rewrite !failures_app. unfold failures. simpl. lia.
Qed.

Lemma select_framework_loop_exhausted bads w :
  stdin w = Line <$> bads →
  Forall (λ entered, selects entered = None) bads →
  ∃ w', select_framework_loop (stdin w) w = Raise EOFError w'
        ∧ stdin w' = [] ∧ same_files w w'
        ∧ failures (stdout w') = failures (stdout w) + length bads.
Proof.
  revert w. induction bads as [|bad bads IH]; intros w Hin Hbads.
  - rewrite fmap_nil in Hin. rewrite Hin. cbn [select_framework_loop].
    unfold get_user_input, mbind, M_bind, input. rewrite Hin.
    eexists. split_and!; [done | simpl; by rewrite ?Hin | done |].
    simpl. rewrite !failures_app. unfold failures. simpl. lia.
  - apply Forall_cons in Hbads as [Hbad Hbads]. rewrite fmap_cons in Hin. rewrite Hin.
    destruct (select_step_rejected (Line bad) (Line <$> bads) w bad)
      as [message ->]; [by rewrite Hin | done |].
    assert (stdin (printed Failure message (after_input selection_prompt w))
            = Line <$> bads) as Hin' by (simpl; by rewrite Hin).
    destruct (IH _ Hin' Hbads) as (w' & Hrun & Hrest & Hsame & Hfail).
    rewrite Hin' in Hrun.
    exists w'. split_and!; [done | done | |].
    + eapply same_files_trans; [|exact Hsame]. done.
    + rewrite Hfail. simpl. rewrite !failures_app. unfold failures. simpl. lia.
Qed.

End Selection.

(** X1. [select_framework] asks again after every entry that does not
    read as a number between 1 and the number of frameworks, printing
    one error message for each, and returns the framework of the first
    entry that does; it consumes exactly these entries and touches no
    file. *)
Theorem select_framework_retries w bads good rest config :
  stdin w = (Line <$> bads) ++ Line good :: rest →
  Forall (λ entered, selects entered = None) bads →
  selects good = Some config →
  ∃ w', select_framework w = Ok config w'
        ∧ stdin w' = rest ∧ same_files w w'
        ∧ failures (stdout w') = failures (stdout w) + length bads.
Proof.
  intros Hin Hbads Hgood. unfold select_framework, mbind, M_bind.
  rewrite list_frameworks_result.
  match goal with |- context [select_framework_loop _ ?w0] => set (w0' := w0) end.
  change (stdin w) with (stdin w0').
  destruct (select_framework_loop_retries bads good rest config w0' Hin Hbads Hgood)
    as (w' & Hrun & Hrest & Hsame & Hfail).
  exists w'. split_and!; [done | done | done |].
  rewrite Hfail. subst w0'. cbn [stdout]. rewrite failures_app.
  assert (failures ((Header, "Available Frameworks")
                    :: concat (imap framework_lines FRAMEWORKS)) = 0) as -> by reflexivity.
  lia.
Qed.

Lemma select_framework_retries_witness :
  ∃ w', select_framework (mkWorld ∅ [Line "x"; Line "7"; Line "-1"; Line " 2 "; Line "3"]
                            [] [] demo_date)
        = Ok (mkFramework "typescript-nodejs" "TypeScript + Node.js + Express" "TypeScript"
                "Express" "npm/yarn" "Jest" "Istanbul" "node:20-alpine" "5.3+"
                "TypeScript backend with Express, Jest, and ESLint") w'
        ∧ stdin w' = [Line "3"]
        ∧ failures (stdout w') = 3.
Proof.
  destruct (select_framework_retries
              (mkWorld ∅ [Line "x"; Line "7"; Line "-1"; Line " 2 "; Line "3"] [] [] demo_date)
              ["x"; "7"; "-1"] " 2 " [Line "3"]
              (mkFramework "typescript-nodejs" "TypeScript + Node.js + Express" "TypeScript"
                 "Express" "npm/yarn" "Jest" "Istanbul" "node:20-alpine" "5.3+"
                 "TypeScript backend with Express, Jest, and ESLint"))
    as (w' & Hrun & Hrest & _ & Hfail).
  - reflexivity.
  - repeat constructor.
  - reflexivity.
  - exists w'. split_and!; [exact Hrun | exact Hrest | exact Hfail].
Defined.

(** X2. The number that [list_frameworks] prints in front of a
    framework is the entry that selects this framework, and an empty
    entry selects the first framework. *)
Theorem listed_number_selects k item :
  FRAMEWORKS !! k = Some item →
  head (framework_lines k item)
  = Some (Plain, Str.of_nat (S k) +:+ ". " +:+ display_name item.2)
  ∧ selects (Str.of_nat (S k)) = Some item.2
  ∧ selects "" = head FRAMEWORKS.*2.
Proof.
  intros Hk. split; [done |]. split; [|reflexivity].
  destruct k as [|[|[|k]]]; simpl in Hk; [| | |done]; injection Hk as <-; reflexivity.
Qed.

Lemma listed_number_selects_witness :
  selects "3" = Some (mkFramework "python-behave" "Python + Behave (BDD)" "Python" "Behave"
                        "Poetry" "Behave + pytest" "coverage.py" "python:3.11-slim" "3.11.x"
                        "Behavior-driven development with Behave and Python").
Proof.
  exact (proj1 (proj2 (listed_number_selects 2 _ eq_refl))).
Defined.

(** X3. When the console runs out of entries and none of them was
    accepted, [select_framework] ends with [EOFError] after one error
    message for each entry: the loop does not spin. *)
Theorem select_framework_exhausted w bads :
  stdin w = Line <$> bads →
  Forall (λ entered, selects entered = None) bads →
  ∃ w', select_framework w = Raise EOFError w'
        ∧ stdin w' = [] ∧ same_files w w'
        ∧ failures (stdout w') = failures (stdout w) + length bads.
Proof.
  intros Hin Hbads. unfold select_framework, mbind, M_bind.
  rewrite list_frameworks_result.
  match goal with |- context [select_framework_loop _ ?w0] => set (w0' := w0) end.
  change (stdin w) with (stdin w0').
  destruct (select_framework_loop_exhausted bads w0' Hin Hbads)
    as (w' & Hrun & Hrest & Hsame & Hfail).
  exists w'. split_and!; [done | done | done |].
  rewrite Hfail. subst w0'. cbn [stdout]. rewrite failures_app.
  assert (failures ((Header, "Available Frameworks")
                    :: concat (imap framework_lines FRAMEWORKS)) = 0) as -> by reflexivity.
  lia.
Qed.

Lemma select_framework_exhausted_witness :
  ∃ w', select_framework (mkWorld ∅ [Line "0"; Line "four"] [] [] demo_date)
        = Raise EOFError w'
        ∧ failures (stdout w') = 2.
Proof.
  destruct (select_framework_exhausted
              (mkWorld ∅ [Line "0"; Line "four"] [] [] demo_date) ["0"; "four"])
    as (w' & Hrun & _ & _ & Hfail).
  - reflexivity.
  - repeat constructor.
  - exists w'. split; [exact Hrun | exact Hfail].
Defined.

(** Entries are read as Python reads them: digits of any script
    count, white space of any script is passed over, underscores may
    separate digits, and more than 4300 digits are no number. *)
Example entries_of_any_script :
  selects "٢" = FRAMEWORKS.*2 !! 1
  ∧ selects (no_break_space +:+ "3" +:+ no_break_space) = FRAMEWORKS.*2 !! 2
  ∧ selects "0_1" = FRAMEWORKS.*2 !! 0
  ∧ selects (Nat.iter 4299 (String "0") "1") = FRAMEWORKS.*2 !! 0
  ∧ selects (Nat.iter 4300 (String "0") "1") = None
  ∧ answer ("y" +:+ no_break_space) (Some "n") = "y".
Proof. vm_compute. done. Qed.

(** X4. With [--list], [main] prints the header and four lines for each
    framework, in the order of the registry, and exits with status 0; it
    reads nothing from the console and touches no file, whatever the
    other arguments are. *)
Theorem main_list script_dir args w :
  arg_list args = true →
  main script_dir args w
  = (0, mkWorld (fs w) (stdin w)
          (stdout w ++ (Header, "Available Frameworks")
                       :: concat (imap framework_lines FRAMEWORKS))
          (written w) (clock w)).
Proof. intros Hlist. unfold main. by rewrite Hlist, list_frameworks_result. Qed.

Lemma main_list_witness :
  (main ["templates"] (mkArgs None None ["out"] false true I) occupied_world).1 = 0
  ∧ length (stdout (main ["templates"] (mkArgs None None ["out"] false true I)
                      occupied_world).2) = 13.
Proof.
  rewrite (main_list ["templates"] (mkArgs None None ["out"] false true I) occupied_world eq_refl).
  split; reflexivity.
Defined.

(** ** Failures while the configuration is resolved *)

Section Raises.

Lemma raises_ret {A} sort (a : A) : raises_only sort (mret a).
Proof. by intros w e w'. Qed.

Lemma raises_raise {A} (sort : exn → Prop) e : sort e → raises_only sort (raise e : M A).
Proof. by intros He w e' w' [= <- _]. Qed.

Lemma raises_bind {A B} sort (m : M A) (f : A → M B) :
  raises_only sort m → (∀ a, raises_only sort (f a)) → raises_only sort (m ≫= f).
Proof.
  intros Hm Hf w e w'. unfold mbind, M_bind.
  destruct (m w) as [a w1 | e1 w1] eqn:Hrun.
  - apply Hf.
  - intros [= -> ->]. by eapply Hm.
Qed.

Lemma raises_print sort st text : raises_only sort (print st text).
Proof. by intros w e w'. Qed.

Lemma raises_get_user_input prompt default :
  raises_only console_end (get_user_input prompt default).
Proof.
  apply raises_bind; [|intros; apply raises_ret].
  intros w e w'. unfold input.
  destruct (stdin w) as [|[]]; [intros [= <- _]; by right | done | intros [= <- _]; by left].
Qed.

Lemma raises_select_framework_loop pending :
  raises_only console_end (select_framework_loop pending).
Proof.
  induction pending as [|i pending IH]; cbn [select_framework_loop].
  - apply raises_bind; [apply raises_get_user_input | intros _].
    apply raises_raise. by right.
  - apply raises_bind; [apply raises_get_user_input | intros choice].
    destruct (int choice) as [n|].
    + case_bool_decide as Hrange.
      * destruct (_ !! _) eqn:Hlook.
        -- apply raises_bind; [apply raises_print | intros _; apply raises_ret].
        -- apply lookup_ge_None in Hlook. rewrite length_fmap in Hlook. lia.
      * apply raises_bind; [apply raises_print | intros _; apply IH].
    + apply raises_bind; [apply raises_print | intros _; apply IH].
Qed.

Lemma choice_registered key : key ∈ FRAMEWORKS.*1 → is_Some (lookup key).
Proof.
  intros Hkey. simpl in Hkey.
  repeat (apply elem_of_cons in Hkey as [-> | Hkey]; [by eexists |]).
  by apply elem_of_nil in Hkey.
Qed.

(** With a framework that [parse_args] lets through, resolving the
    configuration can only end at the console. *)
Lemma raises_get_project_config framework project_name :
  Is_true (choice framework) →
  raises_only console_end (get_project_config framework project_name).
Proof.
  intros Hchoice. unfold get_project_config. apply raises_bind.
  - destruct framework as [[|c key]|]; cbn [truthy or_empty].
    + intros w e w'. unfold select_framework, mbind, M_bind.
      rewrite list_frameworks_result. apply raises_select_framework_loop.
    + apply bool_decide_unpack, choice_registered in Hchoice as [config ->].
      apply raises_ret.
    + intros w e w'. unfold select_framework, mbind, M_bind.
      rewrite list_frameworks_result. apply raises_select_framework_loop.
  - intros config. apply raises_bind.
    + destruct (truthy project_name); [apply raises_ret | apply raises_get_user_input].
    + intros ?. repeat (apply raises_bind; [apply raises_get_user_input | intros ?]).
      apply raises_ret.
Qed.

End Raises.

(** X5. [get_project_config] only talks to the console: whether it
    returns a configuration or ends with an exception (unknown
    framework, interrupt, end of input), the file system, the log of
    written files and the clock are as before. *)
Theorem get_project_config_keeps_files framework project_name w :
  same_files w (final_world (get_project_config framework project_name w)).
Proof.
  pose proof (console_only_get_project_config framework project_name w) as Hsame.
  by destruct (get_project_config framework project_name w).
Qed.

(** X6. When resolving the configuration for [main] ends with an
    exception (an interrupt at a prompt, the end of the input), [main]
    exits with status 1 and no file is written or changed.  The
    framework of the command line is one that [parse_args] lets
    through, so [get_project_config] knows it and its [sys.exit(1)] is
    not what ends the run. *)
Theorem main_config_failure script_dir args w e w1 :
  arg_list args = false →
  get_project_config (arg_framework args) (arg_name args)
    (printed Header "Project Template Generator" w) = Raise e w1 →
  ∃ w', main script_dir args w = (1, w') ∧ same_files w w'.
Proof.
  intros Hlist Hcfg.
  pose proof (raises_get_project_config (arg_framework args) (arg_name args)
                (arg_framework_choice args) _ _ _ Hcfg) as Hend.
  pose proof (console_only_get_project_config (arg_framework args) (arg_name args)
                (printed Header "Project Template Generator" w)) as Hsame.
  rewrite Hcfg in Hsame.
  assert (same_files w w1) as Hsame1 by (eapply same_files_trans; [|exact Hsame]; done).
  assert (generate_project (mkGenerator script_dir) (arg_output args) (arg_framework args)
            (arg_name args) (negb (arg_base_only args)) w = Raise e w1) as Hrun.
  { unfold generate_project, mbind, M_bind.
    change (print_header "Project Template Generator" w)
      with (Ok () (printed Header "Project Template Generator" w)).
    cbv beta iota. by rewrite Hcfg. }
  unfold main. rewrite Hlist, Hrun.
  destruct Hend as [-> | ->]; eexists; (split; [done |]);
    (eapply same_files_trans; [exact Hsame1 | done]).
Qed.

Lemma main_config_failure_witness :
  ∃ w', main ["templates"] demo_args interrupted_world = (1, w')
        ∧ same_files interrupted_world w'.
Proof.
  edestruct (main_config_failure ["templates"] demo_args interrupted_world)
    as (w' & Hrun & Hsame).
  - reflexivity.
  - reflexivity.
  - exists w'. split; [exact Hrun | exact Hsame].
Defined.

(** X7. With a registered framework key and a project name,
    [get_project_config] uses the name as it is given and asks four
    questions, in the order author, description, GitLab URL and coverage
    threshold; each field is the stripped entry, or the default of the
    question when the entry is blank. *)
Theorem get_project_config_answers key project_name fc w a1 a2 a3 a4 rest :
  lookup key = Some fc →
  project_name ≠ "" →
  stdin w = [Line a1; Line a2; Line a3; Line a4] ++ rest →
  ∃ w',
    get_project_config (Some key) (Some project_name) w
    = Ok (mkConfig fc project_name
            (answer a1 (Some "Your Team"))
            (answer a2 (Some ("A " +:+ display_name fc +:+ " project")))
            (answer a3 (Some ""))
            (answer a4 (Some "80"))) w'
    ∧ stdin w' = rest ∧ same_files w w'.
Proof.
  intros Hkey Hname Hin.
  assert (truthy (Some key) = true ∧ or_empty (Some key) = key) as [Ht1 Ho1]
    by (destruct key; [done | by split]).
  assert (truthy (Some project_name) = true
          ∧ or_empty (Some project_name) = project_name) as [Ht2 Ho2]
    by (destruct project_name; [done | by split]).
  unfold get_project_config. rewrite Ht1, Ho1, Hkey, Ht2, Ho2.
  unfold mbind, M_bind, mret, M_ret.
  rewrite (get_user_input_line _ _ a1) by by rewrite Hin.
  rewrite (get_user_input_line _ _ a2) by (simpl; by rewrite Hin).
  rewrite (get_user_input_line _ _ a3) by (simpl; by rewrite Hin).
  rewrite (get_user_input_line _ _ a4) by (simpl; by rewrite Hin).
  eexists. split_and!; [done | simpl; by rewrite Hin | done].
Qed.

Lemma get_project_config_answers_witness :
  ∃ w',
    get_project_config (Some "python-behave") (Some " my project ")
      (mkWorld ∅ [Line "  Ann "; Line ""; Line "https://gitlab.example/x"; Line " 95"; Line "y"]
               [] [] demo_date)
    = Ok (mkConfig behave " my project " "Ann" "A Python + Behave (BDD) project"
            "https://gitlab.example/x" "95") w'
    ∧ stdin w' = [Line "y"].
Proof.
  edestruct (get_project_config_answers "python-behave" " my project " behave
               (mkWorld ∅ [Line "  Ann "; Line ""; Line "https://gitlab.example/x";
                           Line " 95"; Line "y"] [] [] demo_date))
    as (w' & Hrun & Hrest & _).
  - reflexivity.
  - discriminate.
  - reflexivity.
  - exists w'. split; [exact Hrun | exact Hrest].
Defined.

(** ** The registry and the README *)

(** X8. Every framework of the registry is covered by the tables of the
    README: its install, test and run commands are real commands, not
    the placeholder comments, and its language has a skeleton of its
    own, not the fallback one. *)
Theorem registered_commands key config :
  lookup key = Some config →
  _get_install_command config ≠ "# Install dependencies"
  ∧ _get_test_command config ≠ "# Run tests"
  ∧ _get_run_command config ≠ "# Run application"
  ∧ directories (language config) ≠ directories "".
Proof.
  unfold lookup, FRAMEWORKS. cbn [dict_get].
  repeat case_decide; intros [= <-]; vm_compute; split_and!; discriminate.
Qed.

Lemma registered_commands_witness :
  _get_test_command fastapi ≠ "# Run tests"
  ∧ _get_run_command fastapi ≠ "# Run application".
Proof.
  destruct (registered_commands "python-fastapi" fastapi eq_refl) as (_ & Htest & Hrun & _).
  split; [exact Htest | exact Hrun].
Defined.

Section Contains.

Implicit Types s t a b : string.

Lemma contains_self t b : Str.contains t (t +:+ b) = true.
Proof.
  pose proof (startswith_app t b) as Hs.
  destruct (t +:+ b); simpl; by rewrite Hs.
Qed.

Lemma contains_app_r t a b : Str.contains t b = true → Str.contains t (a +:+ b) = true.
Proof.
  intros Hb. induction a as [|c a IH]; [done |].
  rewrite str_app_cons, contains_cons, IH. apply orb_true_r.
Qed.

Lemma contains_app_l t a b : Str.contains t a = true → Str.contains t (a +:+ b) = true.
Proof.
  induction a as [|c a IH].
  - simpl. rewrite orb_false_r. intros Ht. destruct t; [|done].
    destruct b; reflexivity.
  - rewrite str_app_cons, !contains_cons.
    intros [Hs | Ha]%orb_true_iff.
    + rewrite <- str_app_cons, (startswith_weaken _ _ _ Hs). done.
    + rewrite IH by done. apply orb_true_r.
Qed.

Lemma contains_concat t x (l : list string) :
  x ∈ l → Str.contains t x = true → Str.contains t (String.concat "" l) = true.
Proof.
  intros Hx Ht. induction l as [|y l IH]; [by apply elem_of_nil in Hx |].
  assert (String.concat "" (y :: l) = y +:+ String.concat "" l) as ->.
  { destruct l; simpl; [by rewrite str_app_nil_r | done]. }
  apply elem_of_cons in Hx as [-> | Hx].
  - by apply contains_app_l.
  - apply contains_app_r. by apply IH.
Qed.

Lemma contains_refl t : Str.contains t t = true.
Proof. rewrite <- (str_app_nil_r t) at 2. apply contains_self. Qed.

End Contains.

(** The line of index [k] of the README shows a text. *)
Ltac readme_line k :=
  eapply contains_concat;
  [ apply (list_elem_of_lookup_2 _ k); reflexivity | apply contains_app_l ].

(** X9. For every configuration and date the README shows the project
    name in its title, the description, the language with its version,
    the framework, the package manager, the test framework with the
    coverage tool, the install, test and run commands of the framework,
    the structure diagram of the language, the coverage threshold, the
    author and the date of generation. *)
Theorem readme_shows_configuration now config :
  Forall (λ t, Str.contains t (readme_content now config) = true) (readme_items now config).
Proof.
  unfold readme_items, readme_content.
  repeat apply Forall_cons_2; [..| constructor].
  - readme_line 0. apply contains_refl.
  - readme_line 2. apply contains_refl.
  - readme_line 16. apply contains_app_r, contains_refl.
  - readme_line 7. apply contains_app_r, contains_refl.
  - readme_line 17. apply contains_app_r, contains_refl.
  - readme_line 9. apply contains_app_r, contains_refl.
  - readme_line 24. apply contains_refl.
  - readme_line 27. apply contains_refl.
  - readme_line 30. apply contains_refl.
  - readme_line 36. apply contains_refl.
  - readme_line 45. apply contains_refl.
  - readme_line 56. apply contains_refl.
  - readme_line 60. apply contains_app_r, contains_self.
Qed.



(** ** More on [replace_variables] *)

Lemma contains_token_needs_braces t s :
  token_shaped t = true → Str.contains "{{" s = false → Str.contains t s = false.
Proof.
  intros (c & u & -> & _)%token_shaped_inv. induction s as [|a s IH]; [done |].
  rewrite !contains_cons. intros [Hhead Htail]%orb_false_iff.
  rewrite IH by done. rewrite orb_false_r.
  destruct s as [|b s]; [simpl; by case_decide |].
  rewrite !startswith_cons in Hhead |- *.
  destruct (decide ("{"%char = a)); [|done]. by destruct (decide ("{"%char = b)).
Qed.

(** X11. Substituting twice is substituting once: when every pair of
    opening braces of the text starts a placeholder and no value of the
    configuration contains an opening brace, [replace_variables] leaves
    its own output as it is. *)
Theorem replace_variables_idempotent now content config :
  braces_ok PLACEHOLDERS content = true →
  Forall brace_free (config_values config) →
  replace_variables now (replace_variables now content config) config
  = replace_variables now content config.
Proof.
  intros Hbr Hvalues. pose proof (replacements_ok now config Hvalues) as Hok.
  assert (Str.contains "{{" (replace_variables now content config) = false) as Hno.
  { unfold replace_variables. rewrite replace_each_single_pass by done.
    by apply substitute_no_double_brace. }
  unfold replace_variables at 1. apply replace_each_absent.
  destruct Hok as (Hall & _). eapply Forall_impl; [exact Hall |].
  intros [t v] [Hshape _]. split; [by apply token_shaped_nonempty |].
  by apply contains_token_needs_braces.
Qed.

Lemma replace_variables_idempotent_witness :
  replace_variables demo_date (replace_variables demo_date full_template demo_config)
    demo_config
  = replace_variables demo_date full_template demo_config.
Proof.
  apply replace_variables_idempotent; [reflexivity | repeat constructor].
Defined.

(** ** What the directory skeleton never does *)

Section OnlyAdds.

Lemma only_adds_ret {A} (a : A) : only_adds (mret a).
Proof. by intros w. Qed.

Lemma only_adds_bind {A B} (m : M A) (f : A → M B) :
  only_adds m → (∀ a, only_adds (f a)) → only_adds (m ≫= f).
Proof.
  intros Hm Hf w. unfold mbind, M_bind. specialize (Hm w).
  destruct (m w) as [a w1 | e w1]; [|done]. simpl in Hm.
  destruct Hm as (Hfs & Hwr & Hin). destruct (Hf a w1) as (Hfs' & Hwr' & Hin').
  split_and!; [by etrans | congruence | congruence].
Qed.

Lemma only_adds_print st text : only_adds (print st text).
Proof. by intros w. Qed.

Lemma only_adds_mkdir p : only_adds (Path.mkdir p).
Proof.
  intros w. unfold Path.mkdir. destruct (List.find _ _); [done |].
  split_and!; [apply map_union_subseteq_l | done | done].
Qed.

Lemma only_adds_touch p : only_adds (Path.touch p).
Proof.
  intros w. unfold Path.touch.
  destruct (Path.lookup_node (fs w) p) as [n|] eqn:Hn; [done |].
  destruct (Path.parent_error (fs w) p); [done |].
  split_and!; [|done | done]. simpl. apply insert_subseteq.
  destruct p; [done | exact Hn].
Qed.

Lemma only_adds_create_directories_loop out fw dirs :
  only_adds (create_directories_loop out fw dirs).
Proof.
  induction dirs as [|d dirs IH]; [apply only_adds_ret |].
  cbn [create_directories_loop].
  apply only_adds_bind; [apply only_adds_mkdir | intros _].
  apply only_adds_bind; [|intros _; apply IH].
  case_decide; [apply only_adds_touch | apply only_adds_ret].
Qed.

End OnlyAdds.

(** X12. [create_directory_structure] only adds to the file system:
    whether it succeeds or fails half-way, every node that was there is
    still there with its content, no file is opened for writing and no
    input is read. *)
Theorem create_directory_structure_only_adds out fw w :
  fs w ⊆ fs (final_world (create_directory_structure out fw w))
  ∧ written (final_world (create_directory_structure out fw w)) = written w
  ∧ stdin (final_world (create_directory_structure out fw w)) = stdin w.
Proof.
  apply (only_adds_bind (create_directories_loop out fw (directories (language fw)))
           (λ _, print_success "Created directory structure")).
  - apply only_adds_create_directories_loop.
  - intros _. apply only_adds_print.
Qed.

(** A run that fails half-way: [out/tests] is a regular file, so the
    directories below [out/src] are made before [mkdir] fails; the file
    is kept. *)
Example create_directory_structure_partial_failure :
  ∃ e w',
    create_directory_structure ["out"] fastapi
      (mkWorld (list_to_map [ (["out"], Dir); (["out"; "tests"], File "notes") ])
               [] [] [] demo_date)
    = Raise e w'
    ∧ fs w' !! ["out"; "tests"] = Some (File "notes")
    ∧ fs w' !! ["out"; "src"; "utilities"] = Some Dir.
Proof.
  eexists. eexists. split; [vm_compute; reflexivity |].
  split; vm_compute; reflexivity.
Qed.

(** ** Going on with the generation *)

Lemma exists_and_nonempty_false p w :
  Path.exists_ (fs w) p = false ∨ (Path.is_dir (fs w) p = true ∧ Path.iterdir (fs w) p = []) →
  exists_and_nonempty p w = Ok false w.
Proof.
  unfold exists_and_nonempty, get_fs, mbind, M_bind. intros [Hmissing | [Hdir Hnone]].
  - by rewrite Hmissing.
  - rewrite (is_dir_exists _ _ Hdir), Hdir. unfold mret, M_ret.
    by rewrite bool_decide_eq_false_2 by (intros Hne; by apply Hne).
Qed.

(** X13. When the output directory does not exist or is empty,
    [generate_project] asks no overwrite question: once the
    configuration is resolved it goes on to generate the files, with the
    console input and the files as the configuration left them. *)
Theorem generate_project_fresh self out framework project_name use w config w1 :
  get_project_config framework project_name (printed Header "Project Template Generator" w)
  = Ok config w1 →
  Path.exists_ (fs w) out = false
  ∨ (Path.is_dir (fs w) out = true ∧ Path.iterdir (fs w) out = []) →
  ∃ w2, generate_project self out framework project_name use w
        = generate_files self config out use w2
        ∧ stdin w2 = stdin w1 ∧ same_files w w2.
Proof.
  intros Hcfg Hfresh.
  pose proof (console_only_get_project_config framework project_name
                (printed Header "Project Template Generator" w)) as Hsame.
  rewrite Hcfg in Hsame. destruct Hsame as (Hfs & Hwr & Hclk). simpl in Hfs, Hwr, Hclk.
  unfold generate_project, mbind, M_bind.
  change (print_header "Project Template Generator" w)
    with (Ok () (printed Header "Project Template Generator" w)).
  cbv beta iota. rewrite Hcfg. unfold print_info, print at 1 2.
  rewrite exists_and_nonempty_false by (simpl; by rewrite Hfs).
  eexists. split_and!; [reflexivity | done |].
  split_and!; simpl; congruence.
Qed.

Lemma generate_project_fresh_witness :
  ∃ w2, generate_project (mkGenerator ["templates"]) ["out"] (Some "python-fastapi")
          (Some "demo") true base_template_world
        = generate_files (mkGenerator ["templates"]) demo_config ["out"] true w2
        ∧ stdin w2 = [].
Proof.
  edestruct (generate_project_fresh (mkGenerator ["templates"]) ["out"]
               (Some "python-fastapi") (Some "demo") true base_template_world)
    as (w2 & Hrun & Hin & _).
  - reflexivity.
  - left. reflexivity.
  - exists w2. split; [exact Hrun | exact Hin].
Defined.

(** X14. When the output directory is not empty and the entry at the
    overwrite question is [y] or [Y] (blanks around it are ignored),
    [generate_project] goes on to generate the files; nothing is written
    before that. *)
Theorem generate_project_confirmed self out framework project_name use w config w1
    entered rest :
  get_project_config framework project_name (printed Header "Project Template Generator" w)
  = Ok config w1 →
  Path.is_dir (fs w) out = true →
  Path.iterdir (fs w) out ≠ [] →
  stdin w1 = Line entered :: rest →
  Str.lower (answer entered (Some "n")) = "y" →
  ∃ w2, generate_project self out framework project_name use w
        = generate_files self config out use w2
        ∧ stdin w2 = rest ∧ same_files w w2.
Proof.
  intros Hcfg Hdir Hsome Hin Hyes.
  pose proof (console_only_get_project_config framework project_name
                (printed Header "Project Template Generator" w)) as Hsame.
  rewrite Hcfg in Hsame. destruct Hsame as (Hfs & Hwr & Hclk). simpl in Hfs, Hwr, Hclk.
  unfold generate_project, mbind, M_bind.
  change (print_header "Project Template Generator" w)
    with (Ok () (printed Header "Project Template Generator" w)).
  cbv beta iota. rewrite Hcfg. unfold print_info, print at 1 2.
  rewrite exists_and_nonempty_true by (simpl; by rewrite Hfs).
  rewrite (get_user_input_line _ _ entered) by (simpl; by rewrite Hin).
  rewrite decide_False by (intros Hno; by apply Hno).
  eexists. split_and!; [reflexivity | simpl; by rewrite Hin |].
  split_and!; simpl; congruence.
Qed.

Lemma generate_project_confirmed_witness :
  ∃ w2, generate_project (mkGenerator ["templates"]) ["out"] (Some "python-fastapi")
          (Some "demo") true
          (mkWorld (fs occupied_world) [Line ""; Line ""; Line ""; Line ""; Line " Y "]
                   [] [] demo_date)
        = generate_files (mkGenerator ["templates"]) demo_config ["out"] true w2
        ∧ stdin w2 = [].
Proof.
  edestruct (generate_project_confirmed (mkGenerator ["templates"]) ["out"]
               (Some "python-fastapi") (Some "demo") true
               (mkWorld (fs occupied_world) [Line ""; Line ""; Line ""; Line ""; Line " Y "]
                        [] [] demo_date))
    as (w2 & Hrun & Hin & _).
  - reflexivity.
  - reflexivity.
  - vm_compute. discriminate.
  - reflexivity.
  - reflexivity.
  - exists w2. split; [exact Hrun | exact Hin].
Defined.

Lemma exists_and_nonempty_file p w :
  Path.is_file (fs w) p = true →
  exists_and_nonempty p w = Raise (OSError ENOTDIR p) w.
Proof.
  intros Hfile. unfold exists_and_nonempty, get_fs, mbind, M_bind.
  unfold Path.is_file, Path.exists_, Path.is_dir in *.
  destruct (Path.lookup_node (fs w) p) as [[]|]; done.
Qed.

(** X15. When the output path is a regular file, [generate_project]
    ends with [NotADirectoryError] at the check of the directory, before
    anything is generated: [main] exits with status 1 and no file is
    written or changed. *)
Theorem output_is_a_file script_dir args w config w1 :
  arg_list args = false →
  get_project_config (arg_framework args) (arg_name args)
    (printed Header "Project Template Generator" w) = Ok config w1 →
  Path.is_file (fs w) (arg_output args) = true →
  ∃ w2 w',
    generate_project (mkGenerator script_dir) (arg_output args) (arg_framework args)
      (arg_name args) (negb (arg_base_only args)) w
    = Raise (OSError ENOTDIR (arg_output args)) w2
    ∧ main script_dir args w = (1, w')
    ∧ same_files w w'.
Proof.
  intros Hlist Hcfg Hfile.
  pose proof (console_only_get_project_config (arg_framework args) (arg_name args)
                (printed Header "Project Template Generator" w)) as Hsame.
  rewrite Hcfg in Hsame. destruct Hsame as (Hfs & Hwr & Hclk). simpl in Hfs, Hwr, Hclk.
  set (w2 := printed Info ("Output directory: " +:+ Path.str (arg_output args) +:+ nl)
               (printed Info (nl +:+ "Generating "
                              +:+ display_name (framework_config config)
                              +:+ " project...") w1)).
  exists w2. eexists.
  assert (generate_project (mkGenerator script_dir) (arg_output args) (arg_framework args)
            (arg_name args) (negb (arg_base_only args)) w
          = Raise (OSError ENOTDIR (arg_output args)) w2) as Hrun.
  { unfold generate_project, mbind, M_bind.
    change (print_header "Project Template Generator" w)
      with (Ok () (printed Header "Project Template Generator" w)).
    cbv beta iota. rewrite Hcfg. unfold print_info, print at 1 2.
    rewrite exists_and_nonempty_file by (simpl; by rewrite Hfs).
    reflexivity. }
  split; [exact Hrun |]. unfold main. rewrite Hlist, Hrun.
  split; [reflexivity |]. split_and!; simpl; congruence.
Qed.

Lemma output_is_a_file_witness :
  ∃ w', main ["templates"] demo_args blocked_world = (1, w')
        ∧ same_files blocked_world w'.
Proof.
  edestruct (output_is_a_file ["templates"] demo_args blocked_world)
    as (w2 & w' & _ & Hrun & Hsame).
  - reflexivity.
  - reflexivity.
  - reflexivity.
  - exists w'. split; [exact Hrun | exact Hsame].
Defined.

(** ** Staying within the output directory *)

Section Confined.

Lemma confined_step_refl out w : confined_step out w w.
Proof. split; [done |]. exists []. by rewrite app_nil_r. Qed.

Lemma confined_step_trans out w1 w2 w3 :
  confined_step out w1 w2 → confined_step out w2 w3 → confined_step out w1 w3.
Proof.
  intros [Hkeep (log & Hlog & Hbelow)] [Hkeep' (log' & Hlog' & Hbelow')]. split.
  - intros p n Hp Hout. apply Hkeep'; [by apply Hkeep | done].
  - exists (log ++ log'). split; [by rewrite Hlog', Hlog, app_assoc |].
    by apply Forall_app.
Qed.

Lemma confined_step_same_files out w w' : same_files w w' → confined_step out w w'.
Proof.
  intros (Hfs & Hwr & _). split; [intros p n; by rewrite Hfs |].
  exists []. by rewrite app_nil_r.
Qed.

Lemma confined_step_adds out w w' :
  fs w ⊆ fs w' → written w' = written w → confined_step out w w'.
Proof.
  intros Hfs Hwr. split; [intros p n Hp _; by eapply lookup_weaken |].
  exists []. by rewrite app_nil_r.
Qed.

Lemma confined_console {A} out (m : M A) : console_only m → confined out m.
Proof.
  intros Hm w. specialize (Hm w). apply confined_step_same_files.
  by destruct (m w).
Qed.

Lemma confined_only_adds {A} out (m : M A) : only_adds m → confined out m.
Proof. intros Hm w. destruct (Hm w) as (Hfs & Hwr & _). by apply confined_step_adds. Qed.

Lemma confined_bind {A B} out (m : M A) (f : A → M B) :
  confined out m → (∀ a, confined out (f a)) → confined out (m ≫= f).
Proof.
  intros Hm Hf w. unfold mbind, M_bind. specialize (Hm w).
  destruct (m w) as [a w1 | e w1]; [|done].
  eapply confined_step_trans; [exact Hm | apply Hf].
Qed.

Lemma confined_ret {A} out (a : A) : confined out (mret a).
Proof. intros w. apply confined_step_refl. Qed.

Lemma confined_get_fs out : confined out get_fs.
Proof. intros w. apply confined_step_refl. Qed.

Lemma confined_get_clock out : confined out get_clock.
Proof. intros w. apply confined_step_refl. Qed.

Lemma confined_print out st text : confined out (print st text).
Proof. apply confined_console, console_only_print. Qed.

Lemma confined_mkdir out p : confined out (Path.mkdir p).
Proof. apply confined_only_adds, only_adds_mkdir. Qed.

Lemma confined_read_text out p : confined out (Path.read_text p).
Proof.
  intros w. unfold Path.read_text.
  destruct (Path.lookup_node (fs w) p) as [[content|]|];
    [destruct (Str.first_error content) | |]; apply confined_step_refl.
Qed.

Lemma confined_write_text out p content :
  out `prefix_of` p → confined out (Path.write_text p content).
Proof.
  intros Hbelow w. unfold Path.write_text.
  destruct (Path.lookup_node (fs w) p) as [[]|];
    try apply confined_step_refl;
    (destruct (Path.parent_error (fs w) p); [apply confined_step_refl |]);
    (split; simpl;
     [ intros q n Hq Hout; rewrite lookup_insert_ne; [done | by intros ->]
     | exists [(p, content)]; split; [done | by apply Forall_singleton] ]).
Qed.

Lemma confined_copy_loop out config fd entries copied_files :
  confined out (copy_loop config fd out entries copied_files).
Proof.
  revert copied_files. induction entries as [|file_path entries IH]; intros copied_files;
    cbn [copy_loop]; [apply confined_ret |].
  apply confined_bind; [apply confined_get_fs | intros m].
  destruct (Path.is_file m file_path); [|apply IH].
  apply confined_bind; [apply confined_mkdir | intros _].
  apply confined_bind; [apply confined_read_text | intros content].
  apply confined_bind; [apply confined_get_clock | intros now].
  apply confined_bind; [apply confined_write_text, prefix_app_r; done | intros _].
  apply confined_bind; [apply confined_print | intros _]. apply IH.
Qed.

Lemma confined_copy_framework_template self config out :
  confined out (copy_framework_template self config out).
Proof.
  unfold copy_framework_template.
  apply confined_bind; [apply confined_get_fs | intros m].
  destruct (negb _).
  - apply confined_bind; [apply confined_print | intros _; apply confined_ret].
  - apply confined_bind; [apply confined_mkdir | intros _].
    apply confined_bind; [apply confined_get_fs | intros m'].
    apply confined_copy_loop.
Qed.

Lemma confined_generate_from_base_template self config out :
  confined out (generate_from_base_template self config out).
Proof.
  unfold generate_from_base_template.
  apply confined_bind; [apply confined_get_fs | intros m].
  destruct (negb _).
  - apply confined_bind; [apply confined_print | intros _; apply confined_ret].
  - apply confined_bind; [apply confined_mkdir | intros _].
    apply confined_bind; [apply confined_read_text | intros content].
    apply confined_bind; [apply confined_get_clock | intros now].
    apply confined_bind; [apply confined_write_text, prefix_app_r; done | intros _].
    apply confined_bind; [apply confined_print | intros _; apply confined_ret].
Qed.

Lemma confined_create_directory_structure out fw :
  confined out (create_directory_structure out fw).
Proof.
  apply confined_only_adds.
  apply (only_adds_bind (create_directories_loop out fw (directories (language fw)))
           (λ _, print_success "Created directory structure")).
  - apply only_adds_create_directories_loop.
  - intros _. apply only_adds_print.
Qed.

Lemma confined_generate_readme config out : confined out (generate_readme config out).
Proof.
  unfold generate_readme.
  apply confined_bind; [apply confined_get_clock | intros now].
  apply confined_bind; [apply confined_write_text, prefix_app_r; done | intros _].
  apply confined_print.
Qed.

Lemma confined_finish_project config out : confined out (finish_project config out).
Proof.
  unfold finish_project.
  apply confined_bind; [apply confined_create_directory_structure | intros _].
  apply confined_bind; [apply confined_generate_readme | intros _].
  repeat (apply confined_bind; [apply confined_print | intros _]).
  apply confined_print.
Qed.

Lemma confined_generate_files self config out use :
  confined out (generate_files self config out use).
Proof.
  unfold generate_files.
  apply confined_bind; [|intros _; apply confined_finish_project].
  destruct use.
  - apply confined_bind; [apply confined_copy_framework_template | intros [|? ?]];
      [|apply confined_ret].
    apply confined_bind; [apply confined_print | intros _].
    apply confined_bind; [apply confined_generate_from_base_template | intros _].
    apply confined_ret.
  - apply confined_bind; [apply confined_generate_from_base_template | intros _].
    apply confined_ret.
Qed.

Lemma confined_exists_and_nonempty out p : confined out (exists_and_nonempty p).
Proof.
  intros w. unfold exists_and_nonempty, get_fs, mbind, M_bind.
  destruct (Path.exists_ _ _); [|apply confined_step_refl].
  destruct (Path.is_dir _ _); apply confined_step_refl.
Qed.

Lemma confined_generate_project self out framework project_name use :
  confined out (generate_project self out framework project_name use).
Proof.
  unfold generate_project.
  apply confined_bind; [apply confined_print | intros _].
  apply confined_bind;
    [apply confined_console, console_only_get_project_config | intros config].
  apply confined_bind; [apply confined_print | intros _].
  apply confined_bind; [apply confined_print | intros _].
  apply confined_bind; [apply confined_exists_and_nonempty | intros occupied].
  destruct occupied; [|apply confined_generate_files].
  apply confined_bind;
    [apply confined_console, console_only_get_user_input | intros response].
  case_decide; [apply confined_print | apply confined_generate_files].
Qed.

End Confined.

(** X16. [main] stays within the output directory, however the run
    ends: a node that is not at or below the output path is left as it
    was, and every file opened for writing lies at or below the output
    path. *)
Theorem main_confined script_dir args w :
  confined_step (arg_output args) w (main script_dir args w).2.
Proof.
  unfold main. destruct (arg_list args).
  - pose proof (confined_console (arg_output args) _ console_only_list_frameworks w) as Hlist.
    by destruct (list_frameworks w).
  - pose proof (confined_generate_project (mkGenerator script_dir) (arg_output args)
                  (arg_framework args) (arg_name args) (negb (arg_base_only args)) w)
      as Hrun.
    destruct (generate_project _ _ _ _ _ w) as [[] w' | e w']; [exact Hrun |].
    simpl in Hrun.
    destruct e as [[] ?| | | | |]; simpl;
      try exact Hrun;
      (eapply confined_step_trans; [exact Hrun |];
       apply confined_step_same_files; by split_and!).
Qed.

(** ** A whole generation from the base template *)

Section BaseOnly.

Lemma directories_head lang d :
  d ∈ directories lang → ∃ rest, d = "src" :: rest ∨ d = "tests" :: rest.
Proof.
  unfold directories. intros Hd.
  repeat case_decide;
    repeat (apply elem_of_cons in Hd as [-> | Hd]; [eexists; by (left + right) |]);
    by apply elem_of_nil in Hd.
Qed.

Lemma directories_inhabited lang : ["src"; "services"] ∈ directories lang.
Proof. unfold directories. repeat case_decide; apply list_elem_of_here. Qed.

Lemma child_not_listed lang out d c :
  d ∈ directories lang → c ≠ "src" → c ≠ "tests" → out ++ [c] ∉ Path.ancestors (out ++ d).
Proof.
  intros Hd Hsrc Htests [_ Hpre]%elem_of_ancestors.
  apply prefix_app_inv in Hpre as [k Hk].
  destruct (directories_head _ _ Hd) as [rest [-> | ->]];
    simpl in Hk; injection Hk as Hc _; by subst c.
Qed.

Lemma clear_path_app_l m out d : clear_path m (out ++ d) → clear_path m out.
Proof.
  intros Hclear q [Hq Hpre]%elem_of_ancestors. apply Hclear, elem_of_ancestors.
  split; [done | by apply prefix_app_r].
Qed.

Lemma clear_path_insert_file m p n p' :
  clear_path m p' → p ∉ Path.ancestors p' → clear_path (<[p := n]> m) p'.
Proof.
  intros Hclear Hp q Hq. specialize (Hclear q Hq). unfold Path.is_file in *.
  pose proof Hq as [Hne _]%elem_of_ancestors.
  rewrite lookup_node_ne in * by done.
  rewrite lookup_insert_ne; [done | by intros ->].
Qed.

End BaseOnly.

Lemma written_printed st text w : written (printed st text w) = written w.
Proof. done. Qed.

Lemma fs_printed st text w : fs (printed st text w) = fs w.
Proof. done. Qed.

Lemma stdin_printed st text w : stdin (printed st text w) = stdin w.
Proof. done. Qed.

Lemma finish_project_result config out w w1 w2 :
  create_directory_structure out (framework_config config) w = Ok () w1 →
  generate_readme config out w1 = Ok () w2 →
  finish_project config out w
  = Ok () (printed Plain ("  4. Start coding!" +:+ nl)
            (printed Plain ("  3. " +:+ _get_install_command (framework_config config))
              (printed Plain "  2. Review COPILOT_INSTRUCTIONS.md"
                (printed Plain ("  1. cd " +:+ Path.str out)
                  (printed Info (nl +:+ "Next steps:")
                    (printed Success ("Project created at: " +:+ Path.str out)
                      (printed Header "Project Generation Complete!" w2))))))).
Proof.
  intros Hskeleton Hreadme. unfold finish_project, mbind, M_bind.
  by rewrite Hskeleton, Hreadme.
Qed.


